(** * Launcher-icon generator ([generate_icons.py]): model and properties

    The script crops a photograph to a centred square, resizes it for five
    Android densities, masks a round variant, writes ten PNG files and
    removes one stale XML file.  The development below embeds the script in
    a small state-and-exception monad over

    - a store of image objects (PIL images are mutable objects that the
      script passes around by reference),
    - a file system (a finite map from paths to nodes), and
    - the console.

    The imaging and [os] primitives the script calls are library code; they
    are modelled here by their documented behaviour, each next to the call
    it stands for.  Two computations of the imaging library are left open
    as parameters ([imaging]): the LANCZOS resampling filter, and which
    pixels a filled ellipse covers. *)

From stdpp Require Import gmap strings list fin_maps.
From Stdlib Require Import ZArith Lia.

Local Open Scope Z_scope.

(** ** Images *)

(** The PIL modes the script meets: ["L"] (one band, used for the mask),
    ["RGB"] (a decoded JPEG) and ["RGBA"]. *)
Inductive mode := L | RGB | RGBA.

Definition mode_eqb (a b : mode) : bool :=
  match a, b with
  | L, L | RGB, RGB | RGBA, RGBA => true
  | _, _ => false
  end.

(** A pixel is the list of its band values, as [getpixel] returns them. *)
Abbreviation pixel := (list Z).

(** An image: its mode, its size and its raster (column [x], row [y]). *)
Record image := Image {
  im_mode : mode;
  width : Z;
  height : Z;
  data : Z → Z → pixel
}.

Definition im_size (im : image) : Z * Z := (width im, height im).

Definition in_bounds (im : image) (x y : Z) : bool :=
  (0 <=? x) && (x <? width im) && (0 <=? y) && (y <? height im).

(** [getpixel] raises [IndexError] out of range: [None] here. *)
Definition getpixel (im : image) (x y : Z) : option pixel :=
  if in_bounds im x y then Some (data im x y) else None.

(** The alpha band of an ["RGBA"] pixel (its fourth value). *)
Definition alpha (p : pixel) : Z := nth 3 p 0.

Definition zero_pixel (m : mode) : pixel :=
  match m with
  | L => [0]
  | RGB => [0; 0; 0]
  | RGBA => [0; 0; 0; 0]
  end.

Global Instance image_inhabited : Inhabited image :=
  populate (Image RGBA 0 0 (λ _ _, zero_pixel RGBA)).

(** [Image.new(mode, size, color)]: every pixel is [color]. *)
Definition new_image (m : mode) (sz : Z * Z) (color : pixel) : image :=
  Image m (fst sz) (snd sz) (λ _ _, color).

(** [img.crop((left, upper, right, lower))]: the window has size
    [(right - left, lower - upper)]; what lies outside the source is
    zero-filled. *)
Definition crop_image (im : image) (box : Z * Z * Z * Z) : image :=
  let '(x0, y0, x1, y1) := box in
  Image (im_mode im) (x1 - x0) (y1 - y0)
        (λ x y, if in_bounds im (x + x0) (y + y0)
                then data im (x + x0) (y + y0)
                else zero_pixel (im_mode im)).

(** A resampling filter computes the raster of the resized image from the
    source and the target size.  LANCZOS works in floating point; it is a
    parameter of the development (see [imaging] below). *)
Definition resampler := image → Z → Z → Z → Z → pixel.

(** [img.resize(size, filter)]: PIL returns a copy when the image already
    has the requested size, and resamples otherwise; the result always has
    the requested size and the source's mode. *)
Definition resize_image (im : image) (sz : Z * Z) (filter : resampler) : image :=
  if (width im =? fst sz) && (height im =? snd sz) then im
  else Image (im_mode im) (fst sz) (snd sz) (filter im (fst sz) (snd sz)).

(** Mode conversion of one pixel ([img.convert]). *)
Definition luma (r g b : Z) : Z :=
  Z.shiftr (r * 19595 + g * 38470 + b * 7471 + 32768) 16.

Definition convert_pixel (from to : mode) (p : pixel) : pixel :=
  let r := nth 0 p 0 in
  let g := nth 1 p 0 in
  let b := nth 2 p 0 in
  match from, to with
  | L, L | RGB, RGB | RGBA, RGBA => p
  | L, RGB => [r; r; r]
  | L, RGBA => [r; r; r; 255]
  | RGB, RGBA => [r; g; b; 255]
  | RGBA, RGB => [r; g; b]
  | RGB, L | RGBA, L => [luma r g b]
  end.

Definition convert_image (im : image) (to : mode) : image :=
  Image to (width im) (height im)
        (λ x y, convert_pixel (im_mode im) to (data im x y)).

(** The raster of a filled ellipse: whether the library colours the pixel
    [(x, y)] for a bounding box.  Which pixels next to the outline it takes
    is the library's business; it is the other parameter of the
    development. *)
Definition raster := Z * Z * Z * Z → Z → Z → bool.

(** What the development leaves to the imaging library. *)
Record imaging := Imaging {
  LANCZOS : resampler;
  ELLIPSE : raster
}.

(** A raster to run the script with: the circle the specification
    describes, "inside the circle inscribed in the bounding square (center
    [(size/2, size/2)], radius [size/2])", a pixel being sampled at its
    centre [(x + 1/2, y + 1/2)].  With the bounding box [(x0, y0, x1, y1)]
    and everything doubled to stay in the integers, the centre is inside
    the inscribed ellipse when [X² B² + Y² A² ≤ A² B²] for
    [X = 2x + 1 - (x0 + x1)], [Y = 2y + 1 - (y0 + y1)], [A = x1 - x0],
    [B = y1 - y0].  This is not the raster of the imaging library, which
    takes the box as inclusive (for the box [(0, 0, s, s)] on an [s × s]
    image its disc is one pixel wider than the image and is clipped).  The
    theorems about the script are stated for every raster; this one serves
    the sample runs only. *)
Definition inside_ellipse : raster := λ box x y,
  let '(x0, y0, x1, y1) := box in
  let X := 2 * x + 1 - (x0 + x1) in
  let Y := 2 * y + 1 - (y0 + y1) in
  let A := x1 - x0 in
  let B := y1 - y0 in
  X * X * (B * B) + Y * Y * (A * A) <=? A * A * (B * B).

(** [draw.ellipse(box, fill=ink)] on the image the [Draw] object is bound
    to: the pixels of the image that the raster of the ellipse covers take
    the ink, the others keep their value (no anti-aliasing). *)
Definition fill_ellipse (inside : raster) (im : image) (box : Z * Z * Z * Z)
    (ink : pixel) : image :=
  Image (im_mode im) (width im) (height im)
        (λ x y, if in_bounds im x y && inside box x y
                then ink else data im x y).

(** Mask compositing of one band value, PIL's 8-bit blend. *)
Definition muldiv255 (a b : Z) : Z :=
  let t := a * b + 128 in Z.shiftr (Z.shiftr t 8 + t) 8.

Definition blend8 (m old new : Z) : Z :=
  muldiv255 old (255 - m) + muldiv255 new m.

(** [dst.paste(src, ..., mask)] at one pixel: "where the mask is 255, the
    given image is copied as is; where the mask is 0, the current value is
    preserved; intermediate values mix the two". *)
Definition paste_pixel (m : Z) (old new : pixel) : pixel :=
  if m =? 255 then new
  else if m =? 0 then old
  else zip_with (blend8 m) old new.

(** The value of a mask pixel: the single band of an ["L"] image. *)
Definition mask_value (p : pixel) : Z := nth 0 p 0.

(** [dst.paste(src, (bx, by), mask)]: [src] is converted to the mode of
    [dst] when the modes differ; the pixels of [dst] under the pasted
    rectangle are composited through the mask, the others are kept. *)
Definition match_mode (src : image) (m : mode) : image :=
  if mode_eqb (im_mode src) m then src else convert_image src m.

Definition paste_image (dst src : image) (at_ : Z * Z) (mask : image) : image :=
  let src' := match_mode src (im_mode dst) in
  let '(bx, by_) := at_ in
  Image (im_mode dst) (width dst) (height dst)
        (λ x y, if in_bounds dst x y && in_bounds src' (x - bx) (y - by_)
                then paste_pixel (mask_value (data mask (x - bx) (y - by_)))
                                 (data dst x y) (data src' (x - bx) (y - by_))
                else data dst x y).

(** ** Paths, files and the process context *)

(** A path is the list of its components from the root. *)
Abbreviation path := (list string).

Inductive format := JPEG | PNG.

(** What a file holds: an encoded picture (the codec is the imaging
    library's; the file is modelled by the raster it decodes to) or
    anything else. *)
Inductive content :=
  | Picture (f : format) (im : image)
  | Blob (bytes : string).

Inductive node :=
  | Dir
  | File (c : content).

(** The exceptions the primitives raise.  The first four are the
    subclasses of [OSError] the operating system raises for a path;
    [OSError] itself stands for the errors of the imaging library on a file
    that is no picture it can read ([PIL.UnidentifiedImageError], which is
    an [OSError], or the [OSError] of a file that identifies but does not
    decode). *)
Inductive exn :=
  | FileNotFoundError (p : path)
  | IsADirectoryError (p : path)
  | NotADirectoryError (p : path)
  | FileExistsError (p : path)
  | OSError (p : path)
  | ValueError (msg : string).

(** The path an exception is about (its [filename]). *)
Definition exn_path (e : exn) : option path :=
  match e with
  | FileNotFoundError p | IsADirectoryError p | NotADirectoryError p
  | FileExistsError p | OSError p => Some p
  | ValueError _ => None
  end.

(** The lines the script prints. *)
Inductive message :=
  | MsgOpening (p : path)
  | MsgCropped (w h : Z)
  | MsgWrote (p : path) (sz : Z)
  | MsgWroteRound (p : path) (sz : Z)
  | MsgRemoved (p : path)
  | MsgDone
  | MsgRemember.

(** The state the script runs in. *)
Record world := World {
  objs : list image;
  files : gmap path node;
  console : list message
}.

Definition set_objs (w : world) (o : list image) : world :=
  World o (files w) (console w).
Definition set_files (w : world) (f : gmap path node) : world :=
  World (objs w) f (console w).
Definition set_console (w : world) (c : list message) : world :=
  World (objs w) (files w) c.

(** ** The monad: state, with exceptions that nobody catches *)

Inductive outcome (A : Type) :=
  | Ok (a : A)
  | Raised (e : exn).
Arguments Ok {A} a.
Arguments Raised {A} e.

Definition M (A : Type) : Type := world → world * outcome A.

Definition ret {A} (a : A) : M A := λ w, (w, Ok a).
Definition raise {A} (e : exn) : M A := λ w, (w, Raised e).
Definition bind {A B} (m : M A) (k : A → M B) : M B :=
  λ w, match m w with
       | (w', Ok a) => k a w'
       | (w', Raised e) => (w', Raised e)
       end.

Notation "'let!' x := m 'in' k" := (bind m (λ x, k))
  (at level 10, x pattern, m at level 100, k at level 200).
Notation "m >> k" := (bind m (λ _, k))
  (at level 100, k at level 200, right associativity).

(** [for x in xs: body(x)] *)
Fixpoint for_each {A} (xs : list A) (body : A → M unit) : M unit :=
  match xs with
  | [] => ret tt
  | x :: xs' => body x >> for_each xs' body
  end.

Definition print (m : message) : M unit :=
  λ w, (set_console w (console w ++ [m]), Ok tt).

(** *** The object store *)

(** References are indices into [objs]; allocation appends.  Python has no
    dangling reference, so a reference the script holds is always in
    range. *)
Abbreviation ref := nat.

Definition alloc (im : image) : M ref :=
  λ w, (set_objs w (objs w ++ [im]), Ok (length (objs w))).
Definition deref (r : ref) : M image :=
  λ w, (w, Ok (objs w !!! r)).
Definition assign (r : ref) (im : image) : M unit :=
  λ w, (set_objs w (<[r := im]> (objs w)), Ok tt).

(** *** PIL calls *)

Definition Image_size (img : ref) : M (Z * Z) :=
  let! im := deref img in ret (im_size im).

Definition Image_new (m : mode) (sz : Z * Z) (color : pixel) : M ref :=
  if (fst sz <? 0) || (snd sz <? 0)
  then raise (ValueError "Width and height must be >= 0")
  else alloc (new_image m sz color).

Definition Image_crop (img : ref) (box : Z * Z * Z * Z) : M ref :=
  let! im := deref img in alloc (crop_image im box).

Definition Image_copy (img : ref) : M ref :=
  let! im := deref img in alloc im.

Definition Image_convert (img : ref) (to : mode) : M ref :=
  let! im := deref img in alloc (convert_image im to).

Definition Image_resize (img : ref) (sz : Z * Z) (filter : resampler) : M ref :=
  let! im := deref img in
  if (width im =? fst sz) && (height im =? snd sz) then alloc im
  else if (fst sz <? 1) || (snd sz <? 1)
  then raise (ValueError "height and width must be > 0")
  else alloc (resize_image im sz filter).

(** [ImageDraw.Draw(im)] is bound to [im] itself: drawing mutates [im]. *)
Definition ImageDraw_Draw (img : ref) : M ref := ret img.

Definition Draw_ellipse (inside : raster) (draw : ref) (box : Z * Z * Z * Z)
    (fill : pixel) : M unit :=
  let! im := deref draw in assign draw (fill_ellipse inside im box fill).

(** [dst.paste(src, box, mask)] mutates [dst]; the mask must have the size
    of the pasted image. *)
Definition Image_paste (dst src : ref) (at_ : Z * Z) (mask : ref) : M unit :=
  let! d := deref dst in
  let! s := deref src in
  let! m := deref mask in
  if (width m =? width s) && (height m =? height s)
  then assign dst (paste_image d s at_ m)
  else raise (ValueError "images do not match").

(** *** The process: environment and password database *)

Record process := Process {
  environ : gmap string string;
  pw_dir : string
}.

Definition slash : Ascii.ascii := Ascii.ascii_of_nat 47.

(** The components of a path written with slashes. *)
Fixpoint split_components (s cur : string) : list string :=
  match s with
  | EmptyString => if String.eqb cur "" then [] else [cur]
  | String c s' =>
      if Ascii.eqb c slash
      then (if String.eqb cur "" then [] else [cur]) ++ split_components s' ""
      else split_components s' (cur +:+ String c EmptyString)
  end.

Definition components (s : string) : path := split_components s "".

(** [os.path.expanduser]: an initial [~] is replaced by the environment
    variable [HOME] if it is set, and by the home directory of the password
    database otherwise. *)
Definition userhome (ctx : process) : string :=
  default (pw_dir ctx) (environ ctx !! "HOME").

Definition expanduser (ctx : process) (p : path) : path :=
  match p with
  | c :: rest =>
      if String.eqb c "~" then components (userhome ctx) ++ rest else p
  | [] => p
  end.

(** [os.path.join] of a path and further (relative) components. *)
Definition os_path_join (a : path) (ps : list string) : path := a ++ ps.

(** *** [os] and the files *)

(** A step on the files fails when a path is missing or of the wrong kind
    (a file where a directory is needed, or the reverse, or a file that is
    no picture); permissions and quotas are not modelled. *)

(** The root always exists and is a directory. *)
Definition node_at (fs : gmap path node) (p : path) : option node :=
  match p with
  | [] => Some Dir
  | _ => fs !! p
  end.

Definition is_dir (fs : gmap path node) (p : path) : bool :=
  match node_at fs p with Some Dir => true | _ => false end.

Definition is_file (fs : gmap path node) (p : path) : bool :=
  match node_at fs p with Some (File _) => true | _ => false end.

Definition parent (p : path) : path := removelast p.

(** The path and the directories above it, the nearest to the root first. *)
Fixpoint prefixes (p : path) : list path :=
  match p with
  | [] => []
  | c :: p' => [c] :: map (cons c) (prefixes p')
  end.

Definition dirs_at (ps : list path) : gmap path node :=
  list_to_map ((λ q, (q, Dir)) <$> ps).

Definition os_path_exists (p : path) : M bool :=
  λ w, (w, Ok (match node_at (files w) p with Some _ => true | None => false end)).

(** The exception for a path at which nothing is: [NotADirectoryError]
    when a file sits on the way to it, [FileNotFoundError] otherwise. *)
Definition missing_error (fs : gmap path node) (p : path) : exn :=
  if existsb (is_file fs) (prefixes (parent p))
  then NotADirectoryError p else FileNotFoundError p.

(** The [mkdir] that fails when the file [q] sits on the way to [p]: the one
    of [p] itself, which exists as a file, or the one of the directory just
    below [q]. *)
Definition mkdir_error (q p : path) : exn :=
  if decide (q = p) then FileExistsError p
  else NotADirectoryError (take (S (length q)) p).

(** [os.makedirs(p, exist_ok=True)]: every missing directory on the way to
    [p] and [p] itself are created, the existing ones are kept; a file on
    the way makes it fail. *)
Definition os_makedirs (p : path) : M unit :=
  λ w, match find (is_file (files w)) (prefixes p) with
       | Some q => (w, Raised (mkdir_error q p))
       | None => (set_files w (files w ∪ dirs_at (prefixes p)), Ok tt)
       end.

(** [os.remove(p)] *)
Definition os_remove (p : path) : M unit :=
  λ w, match node_at (files w) p with
       | None => (w, Raised (missing_error (files w) p))
       | Some Dir => (w, Raised (IsADirectoryError p))
       | Some (File _) => (set_files w (delete p (files w)), Ok tt)
       end.

(** Opening [p] for writing: its directory must exist, and [p] must not be
    a directory; an existing file is overwritten. *)
Definition write_file (p : path) (c : content) : M unit :=
  λ w, match node_at (files w) (parent p) with
       | None => (w, Raised (missing_error (files w) p))
       | Some (File _) => (w, Raised (NotADirectoryError p))
       | Some Dir =>
           match node_at (files w) p with
           | Some Dir => (w, Raised (IsADirectoryError p))
           | _ => (set_files w (<[p := File c]> (files w)), Ok tt)
           end
       end.

(** [img.save(p, format)] *)
Definition Image_save (img : ref) (p : path) (f : format) : M unit :=
  let! im := deref img in write_file p (Picture f im).

(** [Image.open(p)].  The library reads the pixels only when they are first
    used, here by the [convert] that follows at once; a file it cannot
    read fails there at the latest, with nothing done in between, and is
    modelled as failing here. *)
Definition Image_open (p : path) : M ref :=
  λ w, match node_at (files w) p with
       | None => (w, Raised (missing_error (files w) p))
       | Some Dir => (w, Raised (IsADirectoryError p))
       | Some (File (Blob _)) => (w, Raised (OSError p))
       | Some (File (Picture _ im)) => alloc im w
       end.

(** ** The script *)

Definition DENSITIES : list (string * Z) :=
  [ ("mipmap-mdpi", 48);
    ("mipmap-hdpi", 72);
    ("mipmap-xhdpi", 96);
    ("mipmap-xxhdpi", 144);
    ("mipmap-xxxhdpi", 192) ].

Section Script.

(** The imaging library: [Image.LANCZOS] and the ellipse of [ImageDraw]. *)
Variable PIL : imaging.

(** [make_square]: crop to square from center. *)
Definition make_square (img : ref) : M ref :=
  let! (w, h) := Image_size img in
  let side := Z.min w h in
  let left := (w - side) `div` 2 in
  let top := (h - side) `div` 2 in
  Image_crop img (left, top, left + side, top + side).

(** [make_round]: resize then apply circular mask. *)
Definition make_round (img : ref) (size : Z) : M ref :=
  let! img := Image_resize img (size, size) (LANCZOS PIL) in
  let! mask := Image_new L (size, size) [0] in
  let! draw := ImageDraw_Draw mask in
  Draw_ellipse (ELLIPSE PIL) draw (0, 0, size, size) [255] >>
  let! result := Image_new RGBA (size, size) [0; 0; 0; 0] in
  Image_paste result img (0, 0) mask >>
  ret result.

(** The process the script runs in. *)
Variable ctx : process.

Definition SRC : path :=
  expanduser ctx ["~"; "storage"; "downloads"; "aigentik_app_icon.jpg"].
Definition RES : path :=
  expanduser ctx ["~"; "aigentik-android"; "app"; "src"; "main"; "res"].

(** [main], lines 40-43: open, convert and crop the source. *)
Definition main_load : M ref :=
  print (MsgOpening SRC) >>
  let! opened := Image_open SRC in
  let! src := Image_convert opened RGBA in
  let! src := make_square src in
  let! (w, h) := Image_size src in
  print (MsgCropped w h) >>
  ret src.

(** [main], lines 46-59: the loop body, for one entry of [DENSITIES]. *)
Definition main_entry (src : ref) (entry : string * Z) : M unit :=
  let '(density, size) := entry in
  let out_dir := os_path_join RES [density] in
  os_makedirs out_dir >>
  (* Regular icon *)
  let! square := Image_resize src (size, size) (LANCZOS PIL) in
  let out_path := os_path_join out_dir ["ic_launcher.png"] in
  Image_save square out_path PNG >>
  print (MsgWrote out_path size) >>
  (* Round icon *)
  let! copy := Image_copy src in
  let! round_img := make_round copy size in
  let round_path := os_path_join out_dir ["ic_launcher_round.png"] in
  Image_save round_img round_path PNG >>
  print (MsgWroteRound round_path size).

(** [main], lines 61-68: remove old drawable XML. *)
Definition main_cleanup : M unit :=
  let xml_path := os_path_join RES ["drawable"; "ic_launcher.xml"] in
  let! present := os_path_exists xml_path in
  (if present : bool
   then os_remove xml_path >> print (MsgRemoved xml_path)
   else ret tt) >>
  print MsgDone >>
  print MsgRemember.

Definition main : M unit :=
  let! src := main_load in
  for_each DENSITIES (main_entry src) >>
  main_cleanup.

(** [main] up to the removal of the old drawable XML. *)
Definition main_icons : M unit :=
  let! src := main_load in
  for_each DENSITIES (main_entry src).

End Script.

(** ** What the two image functions compute *)

Definition square_box (im : image) : Z * Z * Z * Z :=
  let side := Z.min (width im) (height im) in
  let left := (width im - side) `div` 2 in
  let top := (height im - side) `div` 2 in
  (left, top, left + side, top + side).

(** The image [make_square] allocates. *)
Definition square_image (im : image) : image := crop_image im (square_box im).

(** The mask [make_round] draws, and the image it returns. *)
Definition round_mask (F : imaging) (s : Z) : image :=
  fill_ellipse (ELLIPSE F) (new_image L (s, s) [0]) (0, 0, s, s) [255].

Definition round_image (F : imaging) (im : image) (s : Z) : image :=
  paste_image (new_image RGBA (s, s) [0; 0; 0; 0])
              (resize_image im (s, s) (LANCZOS F)) (0, 0) (round_mask F s).

(** The pixel centre [(x + 1/2, y + 1/2)] against the circle inscribed in
    the [s × s] square (centre [(s/2, s/2)], radius [s/2]), doubled. *)
Definition inside_circle (s x y : Z) : Prop :=
  (2 * x + 1 - s) * (2 * x + 1 - s) + (2 * y + 1 - s) * (2 * y + 1 - s) ≤ s * s.
Definition outside_circle (s x y : Z) : Prop :=
  (2 * x + 1 - s) * (2 * x + 1 - s) + (2 * y + 1 - s) * (2 * y + 1 - s) > s * s.

(** Two images with the same mode, size and pixels. *)
Definition same_raster (a b : image) : Prop :=
  im_mode a = im_mode b ∧ im_size a = im_size b ∧
  ∀ x y, getpixel a x y = getpixel b x y.

(** The round image as section 8 of the specification words it: size
    [s × s], alpha 0 outside the inscribed circle, opaque inside, positive
    alpha at the centre. *)
Definition round_opaque_claim (F : imaging) (w : world) (img : ref) (s : Z) : Prop :=
  ∃ w' r, make_round F img s w = (w', Ok r) ∧
    let out := objs w' !!! r in
    im_size out = (s, s) ∧
    (∀ x y, 0 ≤ x < s → 0 ≤ y < s → outside_circle s x y →
            alpha (data out x y) = 0) ∧
    (∀ x y, 0 ≤ x < s → 0 ≤ y < s → inside_circle s x y →
            alpha (data out x y) = 255) ∧
    0 < alpha (data out (s `div` 2) (s `div` 2)).

(** An image whose every pixel has alpha 255, and a resampling filter under
    which such an image stays one (as under every filter whose weights sum
    to one, LANCZOS among them). *)
Definition opaque (im : image) : Prop :=
  ∀ x y, in_bounds im x y = true → alpha (data im x y) = 255.

Definition keeps_opaque (filter : resampler) : Prop :=
  ∀ im w h x y,
    0 < width im → 0 < height im → opaque im →
    0 ≤ x < w → 0 ≤ y < h →
    alpha (filter im w h x y) = 255.

(** ** The paths the script works on *)

(** The home directory [~] expands to. *)
Definition home (ctx : process) : path := components (userhome ctx).

Definition out_dir (ctx : process) (density : string) : path :=
  os_path_join (RES ctx) [density].
Definition out_path (ctx : process) (density : string) : path :=
  os_path_join (out_dir ctx density) ["ic_launcher.png"].
Definition round_path (ctx : process) (density : string) : path :=
  os_path_join (out_dir ctx density) ["ic_launcher_round.png"].
Definition xml_path (ctx : process) : path :=
  os_path_join (RES ctx) ["drawable"; "ic_launcher.xml"].

(** The ten output files, in the order the script writes them. *)
Definition outputs (ctx : process) : list path :=
  flat_map (λ e, [out_path ctx e.1; round_path ctx e.1]) DENSITIES.

(** The two lines an entry prints. *)
Definition entry_messages (ctx : process) (e : string * Z) : list message :=
  [MsgWrote (out_path ctx e.1) e.2; MsgWroteRound (round_path ctx e.1) e.2].

(** What [main_entry] leaves in the files when it returns: the directories
    down to the output directory, and the two icons. *)
Definition entry_files (F : imaging) (ctx : process) (im : image)
    (entry : string * Z) (fs : gmap path node) : gmap path node :=
  let '(density, s) := entry in
  <[round_path ctx density := File (Picture PNG (round_image F im s))]>
    (<[out_path ctx density := File (Picture PNG (resize_image im (s, s) (LANCZOS F)))]>
       (fs ∪ dirs_at (prefixes (out_dir ctx density)))).

(** The files hold what the entry [(d, s)] writes from the image [im]. *)
Definition settled (F : imaging) (ctx : process) (im : image)
    (entry : string * Z) (fs : gmap path node) : Prop :=
  (∀ q, q ∈ prefixes (out_dir ctx entry.1) → fs !! q = Some Dir) ∧
  fs !! out_path ctx entry.1 =
    Some (File (Picture PNG (resize_image im (entry.2, entry.2) (LANCZOS F)))) ∧
  fs !! round_path ctx entry.1 =
    Some (File (Picture PNG (round_image F im entry.2))).

(** [keeps ctx ds fs fs']: outside the icons of the densities [ds], what
    was in [fs] is in [fs'] unchanged, and nothing appeared but directories
    on the way to the output directories.  In particular nothing was
    deleted. *)
Definition keeps (ctx : process) (ds : list string) (fs fs' : gmap path node) : Prop :=
  ∀ p, (∀ d, d ∈ ds → p ≠ out_path ctx d ∧ p ≠ round_path ctx d) →
       match fs !! p with
       | Some n => fs' !! p = Some n
       | None => fs' !! p = None ∨
                 (fs' !! p = Some Dir ∧ ∃ d, d ∈ ds ∧ p ∈ prefixes (out_dir ctx d))
       end.

(** [ready ctx fs]: nothing in the files stands in the way of a run: the
    source is a picture; for every density no file sits on the way to its
    directory and no directory sits where an icon goes; the legacy path is
    not a directory. *)
Definition entry_ready (ctx : process) (d : string) (fs : gmap path node) : Prop :=
  (∀ q, q ∈ prefixes (out_dir ctx d) → is_file fs q = false) ∧
  fs !! out_path ctx d ≠ Some Dir ∧
  fs !! round_path ctx d ≠ Some Dir.

Definition ready (ctx : process) (fs : gmap path node) : Prop :=
  (∃ fmt im, fs !! SRC ctx = Some (File (Picture fmt im))) ∧
  (∀ e, e ∈ DENSITIES → entry_ready ctx e.1 fs) ∧
  fs !! xml_path ctx ≠ Some Dir.

(** The line about the legacy path, when there is something to remove. *)
Definition removal_messages (ctx : process) (fs : gmap path node) : list message :=
  match fs !! xml_path ctx with
  | Some _ => [MsgRemoved (xml_path ctx)]
  | None => []
  end.

(** ** Where an entry can stop *)

(** The three calls of the loop body that work on the files, lines 47, 52
    and 58.  An entry stops at [os.makedirs]; or at the [save] of the
    regular icon, the directory made and the icon resized; or at the [save]
    of the round icon, the regular icon saved and reported and the round
    icon computed.  Each time the exception [e] is the one of that call and
    [w'] is the state in which it left the world. *)
Definition stops_at_makedirs (ctx : process) (entry : string * Z)
    (w w' : world) (e : exn) : Prop :=
  os_makedirs (out_dir ctx entry.1) w = (w', Raised e).

Definition stops_at_save (F : imaging) (ctx : process) (src : ref)
    (entry : string * Z) (w w' : world) (e : exn) : Prop :=
  ∃ w1 w2 square,
    os_makedirs (out_dir ctx entry.1) w = (w1, Ok tt) ∧
    Image_resize src (entry.2, entry.2) (LANCZOS F) w1 = (w2, Ok square) ∧
    Image_save square (out_path ctx entry.1) PNG w2 = (w', Raised e).

Definition stops_at_round_save (F : imaging) (ctx : process) (src : ref)
    (entry : string * Z) (w w' : world) (e : exn) : Prop :=
  ∃ w1 w2 w3 w4 w5 w6 square copy round_img,
    os_makedirs (out_dir ctx entry.1) w = (w1, Ok tt) ∧
    Image_resize src (entry.2, entry.2) (LANCZOS F) w1 = (w2, Ok square) ∧
    Image_save square (out_path ctx entry.1) PNG w2 = (w3, Ok tt) ∧
    print (MsgWrote (out_path ctx entry.1) entry.2) w3 = (w4, Ok tt) ∧
    Image_copy src w4 = (w5, Ok copy) ∧
    make_round F copy entry.2 w5 = (w6, Ok round_img) ∧
    Image_save round_img (round_path ctx entry.1) PNG w6 = (w', Raised e).

(** ** Sample runs *)

(** A library for the sample runs: a resampling filter, and the circle of
    the specification for the ellipse (not the library's own raster, see
    [inside_ellipse]). *)
Definition spec_lib (filter : resampler) : imaging := Imaging filter inside_ellipse.

(** A library to run the script with: nearest-neighbour resampling, and
    the ellipse of the specification. *)
Definition nearest : resampler :=
  λ im w h x y, data im ((x * width im) `div` w) ((y * height im) `div` h).

Definition demo_lib : imaging := spec_lib nearest.

(** A home directory with a 1000 × 600 photograph in the downloads. *)
Definition demo_ctx : process := Process {[ "HOME" := "/home/u" ]} "/root".

Definition demo_photo : image :=
  Image RGB 1000 600 (λ x y, [x `mod` 256; y `mod` 256; 7]).

Definition demo_world : world :=
  World []
        (<[SRC demo_ctx := File (Picture JPEG demo_photo)]>
           (dirs_at (prefixes (parent (SRC demo_ctx)))))
        [].

(** The same, with the stale drawable XML still in place. *)
Definition demo_world_xml : world :=
  World [] (<[xml_path demo_ctx := File (Blob "<vector/>")]> (files demo_world)) [].

(** The same again, with a plain file where the [mipmap-hdpi] directory
    should go. *)
Definition demo_world_blocked : world :=
  World [] (<[out_dir demo_ctx "mipmap-hdpi" := File (Blob "x")]>
              (files demo_world_xml)) [].

(** Does a path hold a picture of the given size? *)
Definition holds_picture (fs : gmap path node) (p : path) (sz : Z * Z) : bool :=
  match fs !! p with
  | Some (File (Picture PNG im)) =>
      (width im =? sz.1) && (height im =? sz.2)
  | _ => false
  end.

(** The mask values of a row. *)
Definition mask_row (s y : Z) : list Z :=
  (λ x, mask_value (data (round_mask demo_lib s) x y)) <$> seqZ 0 s.

(** The demo again, with a directory at the legacy path. *)
Definition demo_world_xml_dir : world :=
  World [] (<[xml_path demo_ctx := Dir]> (files demo_world)) [].

(** The run on [demo_world_blocked], step by step: after loading, after
    the first entry, and where the second entry stops. *)
Definition blocked_loaded : world := (main_load demo_ctx demo_world_blocked).1.
Definition blocked_first : world :=
  (for_each [("mipmap-mdpi", 48)] (main_entry demo_lib demo_ctx 2%nat)
            blocked_loaded).1.
Definition blocked_end : world :=
  (main_entry demo_lib demo_ctx 2%nat ("mipmap-hdpi", 72) blocked_first).1.

(** The demo with a directory where the round icon of [mipmap-mdpi] goes,
    and the demo with a plain file where the [storage] directory of the
    source should be. *)
Definition demo_world_round_dir : world :=
  World [] (<[round_path demo_ctx "mipmap-mdpi" := Dir]>
              (files demo_world ∪ dirs_at (prefixes (out_dir demo_ctx "mipmap-mdpi"))))
        [].

Definition demo_world_no_storage : world :=
  World [] (<[home demo_ctx ++ ["storage"] := File (Blob "x")]>
              (dirs_at (prefixes (home demo_ctx)))) [].

(** Processes that differ in their environment only. *)
Definition alice_ctx : process := Process {[ "HOME" := "/home/alice" ]} "/root".
Definition bob_ctx : process := Process {[ "HOME" := "/home/bob" ]} "/root".
Definition demo_ctx_lang : process :=
  Process (<["LANG" := "C"]> (environ demo_ctx)) (pw_dir demo_ctx).

(** Images in the store. *)
Definition transparent_dot : image := Image RGBA 1 1 (λ _ _, [0; 0; 0; 0]).
Definition dot_world : world := World [transparent_dot] ∅ [].

Definition gradient (m : mode) (w h : Z) : image :=
  Image m w h (λ x y, [x `mod` 256; y `mod` 256; 7; 255]).
Definition gradient_world : world := World [gradient RGBA 6 4] ∅ [].

(** A store with an image without alpha band. *)
Definition rgb_stripes : image :=
  Image RGB 6 4 (λ x y, [x `mod` 256; y `mod` 256; 7]).
Definition rgb_world : world := World [rgb_stripes] ∅ [].

(** * Properties *)

(** ** The object store *)

Lemma lookup_total_snoc (l : list image) (x : image) :
  (l ++ [x]) !!! length l = x.
Proof. by rewrite list_lookup_total_middle. Qed.

Lemma lookup_total_snoc_lt (l : list image) (x : image) (i : nat) :
  (i < length l)%nat → (l ++ [x]) !!! i = l !!! i.
Proof. intros. by rewrite lookup_total_app_l. Qed.

Lemma insert_snoc (l : list image) (x y : image) :
  <[length l := y]> (l ++ [x]) = l ++ [y].
Proof.
  rewrite insert_app_r_alt by lia. by rewrite Nat.sub_diag.
Qed.

Lemma make_square_run (img : ref) (w : world) :
  make_square img w =
  (set_objs w (objs w ++ [square_image (objs w !!! img)]), Ok (length (objs w))).
Proof. reflexivity. Qed.

Lemma resize_image_width im s F : width (resize_image im (s, s) F) = s.
Proof.
  unfold resize_image; simpl.
  destruct (width im =? s) eqn:E; simpl; [| done].
  destruct (height im =? s); simpl; [lia | done].
Qed.

Lemma resize_image_height im s F : height (resize_image im (s, s) F) = s.
Proof.
  unfold resize_image; simpl.
  destruct (width im =? s) eqn:E; simpl; [| done].
  destruct (height im =? s) eqn:E'; simpl; [lia | done].
Qed.

Lemma resize_image_mode im sz F : im_mode (resize_image im sz F) = im_mode im.
Proof. unfold resize_image. by destruct (_ && _). Qed.

Lemma Image_resize_run img s F w :
  0 < s →
  Image_resize img (s, s) F w = alloc (resize_image (objs w !!! img) (s, s) F) w.
Proof.
  intros Hs. unfold Image_resize, bind, deref, resize_image. simpl.
  destruct (_ && _); [done |].
  destruct (s <? 1) eqn:E; [lia | done].
Qed.

Lemma Image_resize_same img s F w :
  width (objs w !!! img) = s → height (objs w !!! img) = s →
  Image_resize img (s, s) F w = alloc (resize_image (objs w !!! img) (s, s) F) w.
Proof.
  intros Hw Hh. unfold Image_resize, bind, deref, resize_image. simpl.
  by rewrite Hw, Hh, Z.eqb_refl.
Qed.

Lemma Image_resize_raises img s F w :
  s < 1 → ¬ (width (objs w !!! img) = s ∧ height (objs w !!! img) = s) →
  Image_resize img (s, s) F w =
  (w, Raised (ValueError "height and width must be > 0")).
Proof.
  intros Hs Hne. unfold Image_resize, bind, deref. simpl.
  destruct (_ && _) eqn:E.
  - apply andb_true_iff in E as [?%Z.eqb_eq ?%Z.eqb_eq]. by destruct Hne.
  - destruct (s <? 1) eqn:E'; [done | lia].
Qed.

Ltac norm_world :=
  cbn [set_objs set_files set_console objs files console].

Lemma bind_run {A B} (m : M A) (k : A → M B) (w w' : world) (a : A) :
  m w = (w', Ok a) → bind m k w = k a w'.
Proof. intros H. unfold bind. by rewrite H. Qed.

Lemma bind_raised {A B} (m : M A) (k : A → M B) (w w' : world) (e : exn) :
  m w = (w', Raised e) → bind m k w = (w', Raised e).
Proof. intros H. unfold bind. by rewrite H. Qed.

Lemma Image_new_run m s c w :
  0 ≤ s →
  Image_new m (s, s) c w =
  (set_objs w (objs w ++ [new_image m (s, s) c]), Ok (length (objs w))).
Proof.
  intros Hs. unfold Image_new. simpl.
  destruct (s <? 0) eqn:E; [lia | done].
Qed.

Lemma Draw_ellipse_run E draw box fill w :
  Draw_ellipse E draw box fill w =
  (set_objs w (<[draw := fill_ellipse E (objs w !!! draw) box fill]> (objs w)), Ok tt).
Proof. reflexivity. Qed.

Lemma Image_paste_run dst src at_ mask w :
  width (objs w !!! mask) = width (objs w !!! src) →
  height (objs w !!! mask) = height (objs w !!! src) →
  Image_paste dst src at_ mask w =
  (set_objs w (<[dst := paste_image (objs w !!! dst) (objs w !!! src) at_
                                    (objs w !!! mask)]> (objs w)), Ok tt).
Proof.
  intros Hw Hh. unfold Image_paste, bind, deref.
  rewrite Hw, Hh, !Z.eqb_refl. done.
Qed.

Lemma make_round_run_gen F img s w :
  0 ≤ s →
  Image_resize img (s, s) (LANCZOS F) w = alloc (resize_image (objs w !!! img) (s, s) (LANCZOS F)) w →
  make_round F img s w =
  (set_objs w (objs w ++ [resize_image (objs w !!! img) (s, s) (LANCZOS F);
                          round_mask F s;
                          round_image F (objs w !!! img) s]),
   Ok (S (S (length (objs w))))).
Proof.
  intros Hs Hresize. destruct w as [o f c]. unfold make_round.
  erewrite bind_run by (by rewrite Hresize). unfold alloc; norm_world.
  erewrite bind_run by (apply Image_new_run; lia). norm_world.
  erewrite bind_run by reflexivity.
  erewrite bind_run by apply Draw_ellipse_run. norm_world.
  rewrite lookup_total_snoc, insert_snoc.
  erewrite bind_run by (apply Image_new_run; lia). norm_world.
  set (R := resize_image _ _ _).
  set (o3 := ((o ++ [R]) ++ [_]) ++ [_]).
  assert (Hmask : o3 !!! length (o ++ [R]) = round_mask F s).
  { unfold o3. rewrite lookup_total_snoc_lt by (rewrite !length_app; simpl; lia).
    by rewrite lookup_total_snoc. }
  assert (Hsrc : o3 !!! length o = R).
  { unfold o3. rewrite !lookup_total_snoc_lt by (rewrite !length_app; simpl; lia).
    by rewrite lookup_total_snoc. }
  erewrite bind_run; cycle 1.
  { apply Image_paste_run; norm_world; rewrite Hmask, Hsrc; unfold R.
    - by rewrite resize_image_width.
    - by rewrite resize_image_height. }
  norm_world. rewrite Hmask, Hsrc. unfold o3.
  rewrite lookup_total_snoc, insert_snoc.
  unfold ret. f_equal.
  - unfold set_objs; norm_world. f_equal. by rewrite <- !app_assoc.
  - f_equal. rewrite !length_app. simpl. lia.
Qed.

Lemma make_round_run F img s w :
  0 < s →
  make_round F img s w =
  (set_objs w (objs w ++ [resize_image (objs w !!! img) (s, s) (LANCZOS F);
                          round_mask F s;
                          round_image F (objs w !!! img) s]),
   Ok (S (S (length (objs w))))).
Proof.
  intros Hs. apply make_round_run_gen; [lia | by apply Image_resize_run].
Qed.

(** [make_round] only allocates: whatever [size] is and whether it returns
    or raises, the objects that existed before it are unchanged, and so are
    the files and the console. *)
Lemma make_round_frame F img s w w' r :
  make_round F img s w = (w', r) →
  objs w `prefix_of` objs w' ∧ files w' = files w ∧ console w' = console w ∧
  ∀ out, r = Ok out → (length (objs w) ≤ out < length (objs w'))%nat.
Proof.
  destruct (decide (width (objs w !!! img) = s ∧ height (objs w !!! img) = s))
    as [[Hw Hh] | Hne].
  - destruct (decide (0 ≤ s)) as [Hs | Hs].
    + rewrite make_round_run_gen by (done || by apply Image_resize_same).
      intros [= <- <-]. norm_world. split; [by eexists |].
      split; [done |]. split; [done |].
      intros out [= <-]. rewrite length_app. simpl. lia.
    + unfold make_round.
      erewrite bind_run by (by apply Image_resize_same).
      unfold alloc; norm_world.
      erewrite bind_raised; cycle 1.
      { unfold Image_new. simpl. destruct (s <? 0) eqn:E; [done | lia]. }
      intros [= <- <-]. norm_world. split; [by eexists | done].
  - destruct (decide (0 < s)) as [Hs | Hs].
    + rewrite make_round_run by done.
      intros [= <- <-]. norm_world. split; [by eexists |].
      split; [done |]. split; [done |].
      intros out [= <-]. rewrite length_app. simpl. lia.
    + unfold make_round.
      erewrite bind_raised by (apply Image_resize_raises; [lia | done]).
      intros [= <- <-]. done.
Qed.

(** ** The centre pixel *)

Lemma centre_in_range s : 0 < s → 0 ≤ s `div` 2 < s.
Proof.
  intros Hs. split; [apply Z.div_pos; lia | apply Z.div_lt; lia].
Qed.

(** ** The pixels of the round image *)

Lemma round_mask_data F s x y :
  data (round_mask F s) x y =
  if in_bounds (round_mask F s) x y && ELLIPSE F (0, 0, s, s) x y
  then [255] else [0].
Proof. reflexivity. Qed.

Lemma in_bounds_iff im x y :
  in_bounds im x y = true ↔ (0 ≤ x < width im ∧ 0 ≤ y < height im).
Proof. unfold in_bounds. rewrite !andb_true_iff. lia. Qed.

Lemma match_mode_width im m : width (match_mode im m) = width im.
Proof. unfold match_mode. by destruct (mode_eqb _ _). Qed.

Lemma match_mode_height im m : height (match_mode im m) = height im.
Proof. unfold match_mode. by destruct (mode_eqb _ _). Qed.

Lemma match_mode_same im m : im_mode im = m → match_mode im m = im.
Proof. intros <-. unfold match_mode. by destruct (im_mode im). Qed.

Lemma match_mode_alpha (im : image) (x y : Z) :
  im_mode im ≠ RGBA → alpha (data (match_mode im RGBA) x y) = 255.
Proof.
  intros Hm. unfold match_mode. destruct (im_mode im) eqn:E; try done.
  - simpl. rewrite E. done.
  - simpl. rewrite E. done.
Qed.

(** The resized image of an opaque image is opaque, under a filter that
    keeps opaque images opaque. *)
Lemma resize_image_opaque im s filter x y :
  0 < width im → 0 < height im → opaque im → keeps_opaque filter →
  0 ≤ x < s → 0 ≤ y < s →
  alpha (data (resize_image im (s, s) filter) x y) = 255.
Proof.
  intros Hw Hh Hop Hk Hx Hy. unfold resize_image. cbn [fst snd].
  destruct (_ && _) eqn:E.
  - apply andb_true_iff in E as [E1 E2].
    apply Z.eqb_eq in E1. apply Z.eqb_eq in E2.
    apply Hop, in_bounds_iff. lia.
  - cbn [data]. by apply Hk.
Qed.

Lemma nearest_keeps_opaque : keeps_opaque nearest.
Proof.
  intros im w h x y Hw Hh Hop Hx Hy. unfold nearest.
  apply Hop, in_bounds_iff. split.
  - split; [apply Z.div_pos; nia |].
    apply Z.div_lt_upper_bound; nia.
  - split; [apply Z.div_pos; nia |].
    apply Z.div_lt_upper_bound; nia.
Qed.

Lemma round_image_size F im s :
  width (round_image F im s) = s ∧ height (round_image F im s) = s ∧
  im_mode (round_image F im s) = RGBA.
Proof. done. Qed.

Lemma round_image_data F im s x y :
  0 < s → 0 ≤ x < s → 0 ≤ y < s →
  data (round_image F im s) x y =
  if ELLIPSE F (0, 0, s, s) x y
  then data (match_mode (resize_image im (s, s) (LANCZOS F)) RGBA) x y
  else [0; 0; 0; 0].
Proof.
  intros Hs Hx Hy. unfold round_image, paste_image.
  cbn [data im_mode new_image width height fst snd].
  rewrite !Z.sub_0_r, round_mask_data.
  set (rs := match_mode _ _).
  rewrite (proj2 (in_bounds_iff (new_image _ _ _) x y)) by (simpl; lia).
  rewrite (proj2 (in_bounds_iff rs x y)); cycle 1.
  { unfold rs.
    rewrite match_mode_width, match_mode_height,
      resize_image_width, resize_image_height. lia. }
  rewrite (proj2 (in_bounds_iff (round_mask F s) x y)) by (simpl; lia).
  by destruct (ELLIPSE F _ _ _).
Qed.

(** ** The square cropper *)

Lemma square_image_size im :
  im_size (square_image im) =
  (Z.min (width im) (height im), Z.min (width im) (height im)).
Proof. unfold im_size, square_image, square_box. simpl. f_equal; lia. Qed.

Lemma square_image_getpixel im x y :
  let side := Z.min (width im) (height im) in
  0 ≤ x < side → 0 ≤ y < side →
  getpixel (square_image im) x y =
  getpixel im (x + (width im - side) `div` 2) (y + (height im - side) `div` 2).
Proof.
  intros side Hx Hy. unfold getpixel, square_image, square_box.
  fold side. cbn [crop_image data].
  set (l := (width im - side) `div` 2). set (t := (height im - side) `div` 2).
  assert (0 ≤ l ∧ l + side ≤ width im) as [??].
  { unfold l. split; [apply Z.div_pos; lia |].
    pose proof (Z.mul_div_le (width im - side) 2 ltac:(lia)). lia. }
  assert (0 ≤ t ∧ t + side ≤ height im) as [??].
  { unfold t. split; [apply Z.div_pos; lia |].
    pose proof (Z.mul_div_le (height im - side) 2 ltac:(lia)). lia. }
  rewrite (proj2 (in_bounds_iff (Image _ _ _ _) x y)) by (simpl; lia).
  rewrite (proj2 (in_bounds_iff im (x + l) (y + t))) by lia.
  done.
Qed.

Lemma square_image_of_square im :
  width im = height im → same_raster (square_image im) im.
Proof.
  intros Heq. split; [done |]. split.
  - rewrite square_image_size. unfold im_size. f_equal; lia.
  - intros x y. unfold getpixel, square_image, square_box.
    rewrite <- Heq, Z.min_id, Z.sub_diag. cbn [crop_image data].
    change (0 `div` 2) with 0. rewrite !Z.add_0_r, !Z.add_0_l.
    replace (in_bounds (Image _ _ _ _) x y) with (in_bounds im x y).
    2:{ unfold in_bounds; simpl. by rewrite !Z.sub_0_r, <- Heq. }
    by destruct (in_bounds im x y).
Qed.

(** C2: [make_square] always returns; the image it returns is the window
    of side [min(w, h)] whose top-left corner is at
    [((w - side) // 2, (h - side) // 2)], hence square also when [w ≠ h];
    files, console and the objects that existed before are untouched. *)
Theorem make_square_centre_crop (w : world) (img : ref) :
  let im := objs w !!! img in
  let side := Z.min (width im) (height im) in
  ∃ w' r,
    make_square img w = (w', Ok r) ∧
    files w' = files w ∧ console w' = console w ∧
    objs w `prefix_of` objs w' ∧
    let out := objs w' !!! r in
    im_size out = (side, side) ∧
    ∀ x y, 0 ≤ x < side → 0 ≤ y < side →
      getpixel out x y =
      getpixel im (x + (width im - side) `div` 2)
                  (y + (height im - side) `div` 2).
Proof.
  intros im side. eexists _, _. split; [apply make_square_run |].
  norm_world. rewrite lookup_total_snoc.
  split; [done |]. split; [done |]. split; [by eexists |].
  split; [apply square_image_size |].
  intros x y. apply square_image_getpixel.
Qed.

(** C10: on an image that is already square [make_square] returns the same
    raster, and cropping the result of [make_square] again changes
    nothing. *)
Theorem make_square_idempotent (w : world) (img : ref) :
  let im := objs w !!! img in
  ∃ w1 r1,
    make_square img w = (w1, Ok r1) ∧
    (width im = height im → same_raster (objs w1 !!! r1) im) ∧
    ∃ w2 r2,
      make_square r1 w1 = (w2, Ok r2) ∧
      same_raster (objs w2 !!! r2) (objs w1 !!! r1).
Proof.
  intros im. eexists _, _. split; [apply make_square_run |].
  norm_world. rewrite lookup_total_snoc. split.
  - apply square_image_of_square.
  - eexists _, _. split; [apply make_square_run |].
    norm_world. rewrite !lookup_total_snoc.
    apply square_image_of_square.
    unfold square_image, square_box. simpl. lia.
Qed.

(** ** The round masker *)

Lemma make_round_result F img s w :
  0 < s →
  ∃ w', make_round F img s w = (w', Ok (S (S (length (objs w))))) ∧
        objs w' !! S (length (objs w)) = Some (round_mask F s) ∧
        objs w' !!! S (S (length (objs w))) = round_image F (objs w !!! img) s.
Proof.
  intros Hs. eexists. split; [by apply make_round_run |].
  norm_world. split.
  - rewrite lookup_app_r by lia.
    by replace (S (length (objs w)) - length (objs w))%nat with 1%nat by lia.
  - rewrite lookup_total_app_r by lia.
    by replace (S (S (length (objs w))) - length (objs w))%nat with 2%nat by lia.
Qed.

(** C1, as the specification words it, fails: a fully transparent source
    stays transparent inside the circle, whatever the resampling filter and
    whatever the raster of the ellipse. *)
Lemma round_opaque_claim_fails :
  ¬ ∃ F, ∀ w img s, 0 < s → round_opaque_claim F w img s.
Proof.
  intros [F H].
  destruct (H dot_world 0%nat 1 ltac:(lia)) as (w' & r & Hrun & _ & _ & _ & Hc).
  rewrite make_round_run in Hrun by lia.
  injection Hrun as <- <-.
  change (objs _ !!! _) with (round_image F transparent_dot 1) in Hc.
  change (1 `div` 2) with 0 in Hc.
  rewrite round_image_data in Hc by lia.
  destruct (ELLIPSE F _ _ _); vm_compute in Hc; done.
Qed.

(** C1, amended: for [s > 0] the round image has size [s × s] and mode
    ["RGBA"].  Where the ellipse the library draws for the box
    [(0, 0, s, s)] does not cover a pixel, the pixel is [(0, 0, 0, 0)]: its
    alpha is 0.  Where it does, the pixel is the pixel of the resized input
    (as the ["RGBA"] canvas holds it), so its alpha is the resized input's:
    255 when the input has no alpha band, and 255 when the input is fully
    opaque and the resampling filter keeps opaque images opaque.  The
    centre pixel [(s // 2, s // 2)] is in range; its alpha is positive
    exactly when the ellipse covers it and the resized input's alpha is
    positive there.  This holds for every raster of the ellipse and every
    resampling filter. *)
Theorem make_round_alpha (F : imaging) (w : world) (img : ref) (s : Z) :
  0 < s →
  ∃ w' r,
    make_round F img s w = (w', Ok r) ∧
    let im := objs w !!! img in
    let out := objs w' !!! r in
    let resized := match_mode (resize_image im (s, s) (LANCZOS F)) RGBA in
    let c := s `div` 2 in
    im_size out = (s, s) ∧ im_mode out = RGBA ∧
    (∀ x y, 0 ≤ x < s → 0 ≤ y < s → ELLIPSE F (0, 0, s, s) x y = false →
            data out x y = [0; 0; 0; 0] ∧ alpha (data out x y) = 0) ∧
    (∀ x y, 0 ≤ x < s → 0 ≤ y < s → ELLIPSE F (0, 0, s, s) x y = true →
            data out x y = data resized x y ∧
            (im_mode im ≠ RGBA → alpha (data out x y) = 255) ∧
            (0 < width im → 0 < height im → opaque im →
             keeps_opaque (LANCZOS F) → alpha (data out x y) = 255)) ∧
    0 ≤ c < s ∧
    (0 < alpha (data out c c) ↔
     ELLIPSE F (0, 0, s, s) c c = true ∧ 0 < alpha (data resized c c)).
Proof.
  intros Hs.
  destruct (make_round_result F img s w Hs) as (w' & Hrun & _ & Hout).
  exists w', (S (S (length (objs w)))). split; [done |].
  rewrite Hout. cbv zeta. set (im := objs w !!! img).
  split; [done |]. split; [done |]. split; [| split; [| split]].
  - intros x y Hx Hy Hc. rewrite round_image_data by done. by rewrite Hc.
  - intros x y Hx Hy Hc. rewrite round_image_data by done. rewrite Hc.
    split; [done |]. split.
    + intros Hm. apply match_mode_alpha. by rewrite resize_image_mode.
    + intros Hw Hh Hop Hk.
      destruct (im_mode im) eqn:Hm.
      * apply match_mode_alpha. by rewrite resize_image_mode, Hm.
      * apply match_mode_alpha. by rewrite resize_image_mode, Hm.
      * rewrite match_mode_same by (by rewrite resize_image_mode).
        by apply resize_image_opaque.
  - by apply centre_in_range.
  - pose proof (centre_in_range s Hs) as Hc.
    rewrite round_image_data by done.
    destruct (ELLIPSE F _ _ _).
    + split; [by intros ? | by intros [_ ?]].
    + split; [by intros ? | by intros [? _]].
Qed.

Lemma make_round_alpha_witness :
  0 < 4 ∧
  ∃ w' r,
    make_round demo_lib 0%nat 4 gradient_world = (w', Ok r) ∧
    let out := objs w' !!! r in
    im_size out = (4, 4) ∧ im_mode out = RGBA ∧
    (∀ x y, 0 ≤ x < 4 → 0 ≤ y < 4 → ELLIPSE demo_lib (0, 0, 4, 4) x y = true →
            alpha (data out x y) = 255) ∧
    0 < alpha (data out (4 `div` 2) (4 `div` 2)).
Proof.
  split; [reflexivity |].
  destruct (make_round_alpha demo_lib gradient_world 0%nat 4 eq_refl)
    as (w' & r & Hrun & Hsize & Hmode & _ & Hin & _ & Hcentre).
  exists w', r. split; [exact Hrun |].
  split; [exact Hsize |]. split; [exact Hmode |]. split.
  - intros x y Hx Hy Hc.
    destruct (Hin x y Hx Hy Hc) as (_ & _ & Hop).
    apply Hop; [reflexivity | reflexivity | | apply nearest_keeps_opaque].
    intros x' y' _. reflexivity.
  - apply Hcentre. split; reflexivity.
Defined.

(** C9: whatever pixels the library's ellipse covers, the mask
    [make_round] builds holds only the values 0 and 255, and every pixel of
    the round image is either [(0, 0, 0, 0)] or the pixel of the resized
    input (as the ["RGBA"] canvas holds it; the very pixel when the input
    is ["RGBA"]): nothing is blended. *)
Theorem make_round_hard_edge (F : imaging) (w : world) (img : ref) (s : Z) :
  0 < s →
  ∃ w' r mask,
    make_round F img s w = (w', Ok r) ∧
    objs w' !! (r - 1)%nat = Some mask ∧
    let resized := resize_image (objs w !!! img) (s, s) (LANCZOS F) in
    let out := objs w' !!! r in
    out = paste_image (new_image RGBA (s, s) [0; 0; 0; 0]) resized (0, 0) mask ∧
    (∀ x y, data mask x y = [0] ∨ data mask x y = [255]) ∧
    (∀ x y, 0 ≤ x < s → 0 ≤ y < s →
            data out x y = [0; 0; 0; 0] ∨
            data out x y = data (match_mode resized RGBA) x y) ∧
    (im_mode (objs w !!! img) = RGBA →
     ∀ x y, 0 ≤ x < s → 0 ≤ y < s →
            data out x y = [0; 0; 0; 0] ∨ data out x y = data resized x y).
Proof.
  intros Hs. destruct (make_round_result F img s w Hs) as (w' & Hrun & Hmask & Hout).
  exists w', (S (S (length (objs w)))), (round_mask F s).
  split; [done |]. split; [by rewrite <- Hmask; f_equal; lia |].
  cbv zeta. rewrite Hout.
  assert (Hpix : ∀ x y, 0 ≤ x < s → 0 ≤ y < s →
    data (round_image F (objs w !!! img) s) x y = [0; 0; 0; 0] ∨
    data (round_image F (objs w !!! img) s) x y =
    data (match_mode (resize_image (objs w !!! img) (s, s) (LANCZOS F)) RGBA) x y).
  { intros x y Hx Hy. rewrite round_image_data by done.
    destruct (ELLIPSE F _ _ _); auto. }
  split; [done |]. split; [| split; [done |]].
  - intros x y. rewrite round_mask_data. destruct (_ && _); auto.
  - intros Hmode x y Hx Hy.
    pose proof (Hpix x y Hx Hy) as H.
    by rewrite match_mode_same in H by (by rewrite resize_image_mode).
Qed.

Lemma make_round_hard_edge_witness :
  0 < 4 ∧
  ∃ w' r mask,
    make_round demo_lib 0%nat 4 gradient_world = (w', Ok r) ∧
    objs w' !! (r - 1)%nat = Some mask ∧
    let resized := resize_image (objs gradient_world !!! 0%nat) (4, 4) (LANCZOS demo_lib) in
    let out := objs w' !!! r in
    out = paste_image (new_image RGBA (4, 4) [0; 0; 0; 0]) resized (0, 0) mask ∧
    (∀ x y, data mask x y = [0] ∨ data mask x y = [255]) ∧
    (∀ x y, 0 ≤ x < 4 → 0 ≤ y < 4 →
            data out x y = [0; 0; 0; 0] ∨
            data out x y = data (match_mode resized RGBA) x y) ∧
    (im_mode (objs gradient_world !!! 0%nat) = RGBA →
     ∀ x y, 0 ≤ x < 4 → 0 ≤ y < 4 →
            data out x y = [0; 0; 0; 0] ∨ data out x y = data resized x y).
Proof.
  split; [reflexivity |].
  apply (make_round_hard_edge demo_lib gradient_world 0%nat 4). reflexivity.
Defined.

(** ** Paths and directories *)

Lemma node_at_snoc (fs : gmap path node) (p : path) (c : string) :
  node_at fs (p ++ [c]) = fs !! (p ++ [c]).
Proof. by destruct p. Qed.

Lemma parent_snoc (p : path) (c : string) : parent (p ++ [c]) = p.
Proof. apply removelast_last. Qed.

Lemma prefixes_snoc (p : path) (c : string) :
  prefixes (p ++ [c]) = prefixes p ++ [p ++ [c]].
Proof.
  induction p as [| a p IH]; [done |].
  simpl. rewrite IH, map_app. done.
Qed.

Lemma prefixes_length (p q : path) :
  q ∈ prefixes p → (0 < length q ≤ length p)%nat.
Proof.
  revert q. induction p as [| a p IH]; intros q Hq; simpl in Hq.
  - by apply elem_of_nil in Hq.
  - apply elem_of_cons in Hq as [-> | Hq]; [simpl; lia |].
    apply list_elem_of_fmap in Hq as (q' & -> & Hq').
    apply IH in Hq'. simpl. lia.
Qed.

Lemma dirs_at_lookup (ps : list path) (q : path) :
  dirs_at ps !! q = if decide (q ∈ ps) then Some Dir else None.
Proof.
  unfold dirs_at. induction ps as [| a ps IH].
  - rewrite decide_False by apply not_elem_of_nil. apply lookup_empty.
  - rewrite fmap_cons. cbn [list_to_map foldr fst snd]. 
    destruct (decide (a = q)) as [-> | Hne].
    + rewrite decide_True by (apply elem_of_cons; auto).
      apply lookup_insert_eq.
    + rewrite lookup_insert_ne, IH by done.
      destruct (decide (q ∈ ps)) as [Hq | Hq].
      * rewrite decide_True; [done | apply elem_of_cons; auto].
      * rewrite decide_False; [done |].
        intros [-> | ?]%elem_of_cons; done.
Qed.

(** What [os.makedirs] leaves: nothing that existed changes, and the whole
    chain is made of directories. *)
Lemma makedirs_lookup (fs : gmap path node) (p q : path) :
  (fs ∪ dirs_at (prefixes p)) !! q =
  match fs !! q with
  | Some n => Some n
  | None => if decide (q ∈ prefixes p) then Some Dir else None
  end.
Proof.
  destruct (fs !! q) as [n |] eqn:E.
  - by erewrite lookup_union_Some_l.
  - rewrite lookup_union_r by done. apply dirs_at_lookup.
Qed.

Lemma find_is_file_None (fs : gmap path node) (ps : list path) (q : path) :
  find (is_file fs) ps = None → q ∈ ps → q ≠ [] →
  fs !! q = None ∨ fs !! q = Some Dir.
Proof.
  intros Hf Hq Hne.
  pose proof (find_none _ _ Hf q (proj1 (list_elem_of_In _ _) Hq)) as H.
  unfold is_file in H. destruct q; [done |]. simpl in H.
  destruct (fs !! (s :: q)) as [[| c] |]; auto. done.
Qed.

(** ** One entry of the density table *)

Lemma makedirs_then_dir (fs : gmap path node) (p : path) (c : string) :
  find (is_file fs) (prefixes (p ++ [c])) = None →
  (fs ∪ dirs_at (prefixes (p ++ [c]))) !! (p ++ [c]) = Some Dir.
Proof.
  intros Hf. rewrite makedirs_lookup.
  assert (Hin : p ++ [c] ∈ prefixes (p ++ [c])).
  { rewrite prefixes_snoc. apply elem_of_app. right. apply list_elem_of_singleton. done. }
  destruct (find_is_file_None fs _ _ Hf Hin) as [-> | ->]; [by destruct p | | done].
  by rewrite decide_True.
Qed.

Lemma write_file_run (p : path) (c : string) (x : content) (w : world) :
  files w !! p = Some Dir →
  write_file (p ++ [c]) x w =
  match files w !! (p ++ [c]) with
  | Some Dir => (w, Raised (IsADirectoryError (p ++ [c])))
  | _ => (set_files w (<[p ++ [c] := File x]> (files w)), Ok tt)
  end.
Proof.
  intros Hp. unfold write_file. rewrite parent_snoc, node_at_snoc.
  destruct p as [| a p]; [done |]. simpl node_at. by rewrite Hp.
Qed.

Lemma Image_save_run (img : ref) (p : path) (c : string) (f : format) (w : world) :
  files w !! p = Some Dir →
  Image_save img (p ++ [c]) f w =
  match files w !! (p ++ [c]) with
  | Some Dir => (w, Raised (IsADirectoryError (p ++ [c])))
  | _ => (set_files w (<[p ++ [c] := File (Picture f (objs w !!! img))]> (files w)),
          Ok tt)
  end.
Proof. intros Hp. unfold Image_save, bind, deref. by apply write_file_run. Qed.

Lemma main_entry_run F ctx src d s w :
  0 < s → (src < length (objs w))%nat →
  let im := objs w !!! src in
  let R := resize_image im (s, s) (LANCZOS F) in
  let fs1 := files w ∪ dirs_at (prefixes (out_dir ctx d)) in
  let fs2 := <[out_path ctx d := File (Picture PNG R)]> fs1 in
  let made := objs w ++ [R; im; R; round_mask F s; round_image F im s] in
  main_entry F ctx src (d, s) w =
  match find (is_file (files w)) (prefixes (out_dir ctx d)) with
  | Some q =>
      (w, Raised (mkdir_error q (out_dir ctx d)))
  | None =>
      match fs1 !! out_path ctx d with
      | Some Dir =>
          (World (objs w ++ [R]) fs1 (console w),
           Raised (IsADirectoryError (out_path ctx d)))
      | _ =>
          match fs2 !! round_path ctx d with
          | Some Dir =>
              (World made fs2 (console w ++ [MsgWrote (out_path ctx d) s]),
               Raised (IsADirectoryError (round_path ctx d)))
          | _ =>
              (World made (entry_files F ctx im (d, s) (files w))
                     (console w ++ [MsgWrote (out_path ctx d) s;
                                    MsgWroteRound (round_path ctx d) s]),
               Ok tt)
          end
      end
  end.
Proof.
  destruct w as [o f c]. norm_world. intros Hs Hsrc.
  set (im := o !!! src). set (R := resize_image im (s, s) (LANCZOS F)).
  set (fs1 := f ∪ dirs_at (prefixes (out_dir ctx d))).
  set (fs2 := <[out_path ctx d := File (Picture PNG R)]> fs1).
  set (made := o ++ [R; im; R; round_mask F s; round_image F im s]).
  unfold main_entry. fold (out_dir ctx d).
  fold (out_path ctx d). fold (round_path ctx d).
  unfold bind at 1. unfold os_makedirs at 1. norm_world.
  destruct (find _ _) as [q |] eqn:Hfind; [done |].
  fold fs1.
  assert (Hdir1 : fs1 !! out_dir ctx d = Some Dir)
    by (by apply makedirs_then_dir).
  erewrite bind_run by (by apply Image_resize_run).
  unfold alloc, set_files; norm_world. fold im R.
  unfold bind at 1. unfold out_path at 1 2, os_path_join at 1 2.
  rewrite Image_save_run by done. norm_world.
  change (out_dir ctx d ++ ["ic_launcher.png"]) with (out_path ctx d).
  rewrite lookup_total_snoc.
  assert (Hcont :
    (print (MsgWrote (out_path ctx d) s) >>
     let! copy := Image_copy src
     in let! round_img := make_round F copy s
        in Image_save round_img (round_path ctx d) PNG >>
           print (MsgWroteRound (round_path ctx d) s))
      (World (o ++ [R]) fs2 c) =
    match fs2 !! round_path ctx d with
    | Some Dir =>
        (World made fs2 (c ++ [MsgWrote (out_path ctx d) s]),
         Raised (IsADirectoryError (round_path ctx d)))
    | _ =>
        (World made (entry_files F ctx im (d, s) f)
               (c ++ [MsgWrote (out_path ctx d) s;
                      MsgWroteRound (round_path ctx d) s]),
         Ok tt)
    end).
  { erewrite bind_run by reflexivity. unfold set_console; norm_world.
    erewrite bind_run by reflexivity. unfold set_objs; norm_world.
    rewrite lookup_total_app_l by done. fold im.
    erewrite bind_run by (by apply make_round_run).
    unfold set_objs; norm_world.
    rewrite lookup_total_snoc. fold R.
    assert (Hmade : ((o ++ [R]) ++ [im]) ++ [R; round_mask F s; round_image F im s]
                    = made) by (unfold made; by rewrite <- !app_assoc).
    rewrite Hmade.
    assert (Hround : made !!! S (S (length ((o ++ [R]) ++ [im])))
                     = round_image F im s).
    { unfold made. rewrite lookup_total_app_r by (rewrite !length_app; simpl; lia).
      rewrite !length_app. simpl.
      by replace (S (S (length o + 1 + 1)) - length o)%nat with 4%nat by lia. }
    unfold bind at 1. unfold round_path at 1 2, os_path_join at 1 2.
    rewrite Image_save_run; norm_world; cycle 1.
    { unfold fs2. rewrite lookup_insert_ne; [done |].
      unfold out_path, os_path_join. intros H.
      apply (f_equal length) in H. rewrite length_app in H. simpl in H. lia. }
    change (out_dir ctx d ++ ["ic_launcher_round.png"]) with (round_path ctx d).
    rewrite Hround.
    destruct (fs2 !! round_path ctx d) as [[| x] |]; [done | |];
      unfold print, set_files, set_console; norm_world;
      by rewrite <- app_assoc. }
  destruct (fs1 !! out_path ctx d) as [[| x] |]; [done | |].
  - fold fs2. unfold set_files; norm_world. apply Hcont.
  - fold fs2. unfold set_files; norm_world. apply Hcont.
Qed.

(** ** The beginning and the end of [main] *)

Lemma SRC_eq ctx :
  SRC ctx = (home ctx ++ ["storage"; "downloads"]) ++ ["aigentik_app_icon.jpg"].
Proof. unfold SRC, home. simpl. by rewrite <- app_assoc. Qed.

Lemma RES_eq ctx :
  RES ctx = home ctx ++ ["aigentik-android"; "app"; "src"; "main"; "res"].
Proof. reflexivity. Qed.

Lemma xml_path_eq ctx : xml_path ctx = (RES ctx ++ ["drawable"]) ++ ["ic_launcher.xml"].
Proof. unfold xml_path, os_path_join. by rewrite <- app_assoc. Qed.

Lemma main_load_run ctx w :
  main_load ctx w =
  let w0 := set_console w (console w ++ [MsgOpening (SRC ctx)]) in
  match files w !! SRC ctx with
  | None => (w0, Raised (missing_error (files w) (SRC ctx)))
  | Some Dir => (w0, Raised (IsADirectoryError (SRC ctx)))
  | Some (File (Blob _)) => (w0, Raised (OSError (SRC ctx)))
  | Some (File (Picture _ im)) =>
      let conv := convert_image im RGBA in
      let sq := square_image conv in
      (World (objs w ++ [im; conv; sq]) (files w)
             (console w ++ [MsgOpening (SRC ctx); MsgCropped (width sq) (height sq)]),
       Ok (S (S (length (objs w)))))
  end.
Proof.
  destruct w as [o f c]. unfold main_load.
  erewrite bind_run by reflexivity. unfold set_console; norm_world.
  unfold bind at 1. unfold Image_open at 1. norm_world.
  rewrite SRC_eq, node_at_snoc.
  destruct (f !! _) as [[| [fmt im | b]] |]; try done.
  cbv zeta. unfold alloc, set_objs; norm_world.
  erewrite bind_run by reflexivity. unfold set_objs; norm_world.
  rewrite lookup_total_snoc.
  erewrite bind_run by apply make_square_run. norm_world.
  rewrite lookup_total_snoc.
  erewrite bind_run by reflexivity. unfold set_objs; norm_world.
  rewrite lookup_total_snoc. unfold im_size.
  erewrite bind_run by reflexivity. unfold ret, set_console; norm_world.
  rewrite !length_app, <- !app_assoc. cbn [length app].
  by replace (length o + 1 + 1)%nat with (S (S (length o))) by lia.
Qed.

Lemma main_cleanup_run ctx w :
  main_cleanup ctx w =
  match files w !! xml_path ctx with
  | None => (set_console w (console w ++ [MsgDone; MsgRemember]), Ok tt)
  | Some Dir => (w, Raised (IsADirectoryError (xml_path ctx)))
  | Some (File _) =>
      (World (objs w) (delete (xml_path ctx) (files w))
             (console w ++ [MsgRemoved (xml_path ctx); MsgDone; MsgRemember]),
       Ok tt)
  end.
Proof.
  destruct w as [o f c]. unfold main_cleanup. fold (xml_path ctx).
  erewrite bind_run by reflexivity. norm_world.
  rewrite xml_path_eq, node_at_snoc.
  destruct (f !! _) as [[| x] |] eqn:E.
  - unfold bind at 1. unfold bind at 1. unfold os_remove at 1. norm_world.
    by rewrite node_at_snoc, E.
  - unfold bind at 1. unfold bind at 1. unfold os_remove at 1. norm_world.
    rewrite node_at_snoc, E. unfold print, set_files, set_console, bind; norm_world.
    by rewrite <- !app_assoc.
  - unfold print, set_files, set_console, bind, ret; norm_world.
    by rewrite <- !app_assoc.
Qed.

(** ** The paths are distinct *)

Lemma snoc_ne (p q : path) (a b : string) : a ≠ b → p ++ [a] ≠ q ++ [b].
Proof. intros Hne H. by apply app_inj_tail in H as [_ ?]. Qed.

Lemma out_path_length ctx d : length (out_path ctx d) = S (S (length (RES ctx))).
Proof. unfold out_path, out_dir, os_path_join. rewrite !length_app. simpl. lia. Qed.

Lemma round_path_length ctx d : length (round_path ctx d) = S (S (length (RES ctx))).
Proof. unfold round_path, out_dir, os_path_join. rewrite !length_app. simpl. lia. Qed.

Lemma out_dir_length ctx d : length (out_dir ctx d) = S (length (RES ctx)).
Proof. unfold out_dir, os_path_join. rewrite !length_app. simpl. lia. Qed.

Lemma out_path_inj ctx d d' : out_path ctx d = out_path ctx d' → d = d'.
Proof.
  unfold out_path, out_dir, os_path_join. intros H.
  apply app_inj_tail in H as [H _]. by apply app_inj_tail in H as [_ ?].
Qed.

Lemma round_path_inj ctx d d' : round_path ctx d = round_path ctx d' → d = d'.
Proof.
  unfold round_path, out_dir, os_path_join. intros H.
  apply app_inj_tail in H as [H _]. by apply app_inj_tail in H as [_ ?].
Qed.

Lemma out_dir_inj ctx d d' : out_dir ctx d = out_dir ctx d' → d = d'.
Proof.
  unfold out_dir, os_path_join. intros H. by apply app_inj_tail in H as [_ ?].
Qed.

Lemma out_round_ne ctx d d' : out_path ctx d ≠ round_path ctx d'.
Proof. by apply snoc_ne. Qed.

Lemma prefix_not_output ctx d d' q :
  q ∈ prefixes (out_dir ctx d) → q ≠ out_path ctx d' ∧ q ≠ round_path ctx d'.
Proof.
  intros Hq%prefixes_length. rewrite out_dir_length in Hq.
  split; intros ->; [rewrite out_path_length in Hq | rewrite round_path_length in Hq]; lia.
Qed.

Lemma xml_not_output ctx d :
  xml_path ctx ≠ out_path ctx d ∧ xml_path ctx ≠ round_path ctx d.
Proof. rewrite xml_path_eq. split; by apply snoc_ne. Qed.

Lemma xml_not_prefix ctx d : xml_path ctx ∉ prefixes (out_dir ctx d).
Proof.
  intros Hq%prefixes_length. rewrite out_dir_length, xml_path_eq in Hq.
  rewrite !length_app in Hq. simpl in Hq. lia.
Qed.

Lemma SRC_not_output ctx d :
  SRC ctx ≠ out_path ctx d ∧ SRC ctx ≠ round_path ctx d.
Proof. rewrite SRC_eq. split; by apply snoc_ne. Qed.

Lemma SRC_not_xml ctx : SRC ctx ≠ xml_path ctx.
Proof. rewrite SRC_eq, xml_path_eq. by apply snoc_ne. Qed.

(** ** What one entry keeps *)

Lemma keeps_refl ctx ds fs : keeps ctx ds fs fs.
Proof. intros p _. destruct (fs !! p); auto. Qed.

Lemma keeps_trans ctx ds fs1 fs2 fs3 :
  keeps ctx ds fs1 fs2 → keeps ctx ds fs2 fs3 → keeps ctx ds fs1 fs3.
Proof.
  intros H12 H23 p Hp. specialize (H12 p Hp). specialize (H23 p Hp).
  destruct (fs1 !! p) as [n |].
  - by rewrite H12 in H23.
  - destruct H12 as [H12 | [H12 Hd]]; rewrite H12 in H23; auto.
Qed.

Lemma keeps_weaken ctx ds ds' fs fs' :
  ds ⊆ ds' → keeps ctx ds fs fs' → keeps ctx ds' fs fs'.
Proof.
  intros Hsub H p Hp. specialize (H p (λ d Hd, Hp d (Hsub d Hd))).
  destruct (fs !! p); [done |].
  destruct H as [H | [H (d & Hd & Hq)]]; [by left |].
  right. split; [done |]. exists d. split; [by apply Hsub | done].
Qed.

Lemma keeps_makedirs ctx d fs :
  keeps ctx [d] fs (fs ∪ dirs_at (prefixes (out_dir ctx d))).
Proof.
  intros p _. rewrite makedirs_lookup. destruct (fs !! p); [done |].
  case_decide; [| by left]. right. split; [done |].
  exists d. split; [apply list_elem_of_singleton; done | done].
Qed.

Lemma keeps_insert_out ctx d fs fs' n :
  keeps ctx [d] fs fs' → keeps ctx [d] fs (<[out_path ctx d := n]> fs').
Proof.
  intros H p Hp. specialize (H p Hp).
  destruct (Hp d) as [Hne _]; [apply list_elem_of_singleton; done |].
  by rewrite lookup_insert_ne.
Qed.

Lemma keeps_insert_round ctx d fs fs' n :
  keeps ctx [d] fs fs' → keeps ctx [d] fs (<[round_path ctx d := n]> fs').
Proof.
  intros H p Hp. specialize (H p Hp).
  destruct (Hp d) as [_ Hne]; [apply list_elem_of_singleton; done |].
  by rewrite lookup_insert_ne.
Qed.

Lemma main_entry_effect F ctx src d s w w' r :
  0 < s → (src < length (objs w))%nat →
  main_entry F ctx src (d, s) w = (w', r) →
  objs w `prefix_of` objs w' ∧
  console w `prefix_of` console w' ∧
  keeps ctx [d] (files w) (files w') ∧
  (r = Ok tt →
   find (is_file (files w)) (prefixes (out_dir ctx d)) = None ∧
   files w' = entry_files F ctx (objs w !!! src) (d, s) (files w)).
Proof.
  intros Hs Hsrc. rewrite main_entry_run by done. cbv zeta.
  destruct (find _ _) as [q |].
  { intros [= <- <-]. split; [done |]. split; [done |].
    split; [apply keeps_refl | done]. }
  destruct (_ !! out_path ctx d) as [[| x] |].
  { intros [= <- <-]. norm_world. split; [by eexists |]. split; [done |].
    split; [apply keeps_makedirs | done]. }
  all: destruct (_ !! round_path ctx d) as [[| y] |]; intros [= <- <-]; norm_world.
  all: split; [by eexists |]; split; [by eexists |].
  all: split; [| done].
  all: unfold entry_files; repeat first [apply keeps_insert_round | apply keeps_insert_out].
  all: apply keeps_makedirs.
Qed.

Lemma entry_files_lookup F ctx im d s fs :
  find (is_file fs) (prefixes (out_dir ctx d)) = None →
  let fs' := entry_files F ctx im (d, s) fs in
  fs' !! out_path ctx d = Some (File (Picture PNG (resize_image im (s, s) (LANCZOS F)))) ∧
  fs' !! round_path ctx d = Some (File (Picture PNG (round_image F im s))) ∧
  ∀ q, q ∈ prefixes (out_dir ctx d) → fs' !! q = Some Dir.
Proof.
  intros Hf fs'. unfold fs', entry_files. split; [| split].
  - rewrite lookup_insert_ne by (symmetry; apply out_round_ne).
    apply lookup_insert_eq.
  - apply lookup_insert_eq.
  - intros q Hq. destruct (prefix_not_output ctx d d q Hq) as [H1 H2].
    rewrite !lookup_insert_ne by done. rewrite makedirs_lookup.
    assert (q ≠ []) by (apply prefixes_length in Hq; destruct q; simpl in *; [lia | done]).
    destruct (find_is_file_None fs _ q Hf Hq) as [-> | ->]; [done | | done].
    by rewrite decide_True.
Qed.

(** ** The loop *)

Lemma for_each_cons {A} (x : A) xs body w :
  for_each (x :: xs) body w = (body x >> for_each xs body) w.
Proof. reflexivity. Qed.

Lemma bind_inv {A B} (m : M A) (k : A → M B) w w' r :
  bind m k w = (w', r) →
  (∃ w1 a, m w = (w1, Ok a) ∧ k a w1 = (w', r)) ∨
  (∃ e, m w = (w', Raised e) ∧ r = Raised e).
Proof.
  unfold bind. destruct (m w) as [w1 [a | e]].
  - intros H. left. by exists w1, a.
  - intros [= <- <-]. right. by exists e.
Qed.

(** A loop that raises did so in one iteration, after the iterations
    before it returned; nothing ran after it. *)
Lemma for_each_raised {A} (xs : list A) body w w' e :
  for_each xs body w = (w', Raised e) →
  ∃ done x rest w1,
    xs = done ++ x :: rest ∧
    for_each done body w = (w1, Ok tt) ∧
    body x w1 = (w', Raised e).
Proof.
  revert w. induction xs as [| x xs IH]; intros w H; [done |].
  rewrite for_each_cons in H.
  apply bind_inv in H as [(w1 & [] & Hx & Hrest) | (e' & Hx & [= <-])].
  - destruct (IH _ Hrest) as (dn & y & rest & w2 & -> & Hdn & Hy).
    exists (x :: dn), y, rest, w2. split; [done |]. split; [| done].
    rewrite for_each_cons. by erewrite bind_run by done.
  - by exists [], x, xs, w.
Qed.

Lemma for_each_raised_at {A} (done rest : list A) (x : A) body w w1 w' e :
  for_each done body w = (w1, Ok tt) →
  body x w1 = (w', Raised e) →
  for_each (done ++ x :: rest) body w = (w', Raised e).
Proof.
  revert w. induction done as [| y dn IH]; intros w Hdn Hx.
  { injection Hdn as ->. cbn [app]. rewrite for_each_cons.
    by erewrite bind_raised by done. }
  cbn [app]. rewrite for_each_cons in *.
  apply bind_inv in Hdn as [(w2 & [] & Hy & Hdn) | (? & _ & [=])].
  erewrite bind_run by done. by apply IH.
Qed.

Lemma for_each_effect F ctx src l w w' r :
  Forall (λ e, 0 < e.2) l → (src < length (objs w))%nat →
  for_each l (main_entry F ctx src) w = (w', r) →
  objs w `prefix_of` objs w' ∧
  console w `prefix_of` console w' ∧
  keeps ctx l.*1 (files w) (files w').
Proof.
  intros Hpos. revert w. induction Hpos as [| [d s] l Hs Hpos IH]; intros w Hsrc H.
  { injection H as <- <-. split; [done |]. split; [done |]. apply keeps_refl. }
  rewrite for_each_cons in H. simpl in Hs.
  apply bind_inv in H as [(w1 & [] & Hx & Hrest) | (e' & Hx & ->)].
  - destruct (main_entry_effect _ _ _ _ _ _ _ _ Hs Hsrc Hx) as (Ho & Hc & Hk & _).
    destruct (IH w1) as (Ho' & Hc' & Hk'); [| done |].
    { apply prefix_length in Ho. lia. }
    split; [by etrans |]. split; [by etrans |].
    eapply keeps_trans; (eapply keeps_weaken; [| done]).
    + intros x ->%list_elem_of_singleton. simpl. apply elem_of_cons. auto.
    + intros x Hx'. simpl. apply elem_of_cons. auto.
  - destruct (main_entry_effect _ _ _ _ _ _ _ _ Hs Hsrc Hx) as (Ho & Hc & Hk & _).
    split; [done |]. split; [done |].
    eapply keeps_weaken; [| done].
    intros x ->%list_elem_of_singleton. simpl. apply elem_of_cons. auto.
Qed.

Lemma for_each_outputs F ctx src l w w' :
  Forall (λ e, 0 < e.2) l → NoDup l.*1 → (src < length (objs w))%nat →
  for_each l (main_entry F ctx src) w = (w', Ok tt) →
  ∀ d s, (d, s) ∈ l →
    files w' !! out_path ctx d =
      Some (File (Picture PNG (resize_image (objs w !!! src) (s, s) (LANCZOS F)))) ∧
    files w' !! round_path ctx d =
      Some (File (Picture PNG (round_image F (objs w !!! src) s))) ∧
    ∀ q, q ∈ prefixes (out_dir ctx d) → files w' !! q = Some Dir.
Proof.
  intros Hpos. revert w.
  induction Hpos as [| [d0 s0] l Hs Hpos IH]; intros w Hnd Hsrc H d s Hin.
  { by apply elem_of_nil in Hin. }
  rewrite for_each_cons in H. simpl in Hs.
  apply NoDup_cons in Hnd as [Hd0 Hnd]. simpl in Hd0.
  apply bind_inv in H as [(w1 & [] & Hx & Hrest) | (e' & _ & [=])].
  destruct (main_entry_effect _ _ _ _ _ _ _ _ Hs Hsrc Hx) as (Ho & _ & _ & Hok).
  destruct (Hok eq_refl) as [Hfind Hfiles].
  assert (Hsrc1 : (src < length (objs w1))%nat)
    by (apply prefix_length in Ho; lia).
  assert (Him : objs w1 !!! src = objs w !!! src).
  { destruct Ho as [k ->]. by apply lookup_total_app_l. }
  apply elem_of_cons in Hin as [[= -> ->] | Hin].
  - destruct (for_each_effect _ _ _ _ _ _ _ Hpos Hsrc1 Hrest) as (_ & _ & Hk).
    destruct (entry_files_lookup F ctx (objs w !!! src) d0 s0 (files w) Hfind)
      as (H1 & H2 & H3).
    rewrite <- Hfiles in H1, H2, H3.
    assert (Hfresh : ∀ d', d' ∈ l.*1 → d0 ≠ d') by (intros d' ? ->; done).
    split; [| split].
    + specialize (Hk (out_path ctx d0)). rewrite H1 in Hk. apply Hk.
      intros d' Hd'. split; [| apply out_round_ne].
      intros ?%out_path_inj. by eapply Hfresh.
    + specialize (Hk (round_path ctx d0)). rewrite H2 in Hk. apply Hk.
      intros d' Hd'. split; [intros E; symmetry in E; by apply out_round_ne in E |].
      intros ?%round_path_inj. by eapply Hfresh.
    + intros q Hq. specialize (Hk q). rewrite (H3 q Hq) in Hk. apply Hk.
      intros d' _. by eapply prefix_not_output.
  - rewrite <- Him. by apply IH.
Qed.

Lemma for_each_console F ctx src l w w' :
  Forall (λ e, 0 < e.2) l → (src < length (objs w))%nat →
  for_each l (main_entry F ctx src) w = (w', Ok tt) →
  console w' = console w ++ flat_map (entry_messages ctx) l.
Proof.
  intros Hpos. revert w.
  induction Hpos as [| [d0 s0] l Hs Hpos IH]; intros w Hsrc H.
  { injection H as <-. simpl. by rewrite app_nil_r. }
  rewrite for_each_cons in H. simpl in Hs.
  apply bind_inv in H as [(w1 & [] & Hx & Hrest) | (e' & _ & [=])].
  destruct (main_entry_effect _ _ _ _ _ _ _ _ Hs Hsrc Hx) as (Ho & _ & _ & _).
  rewrite (IH w1); [| apply prefix_length in Ho; lia | done].
  rewrite main_entry_run in Hx by done. cbv zeta in Hx.
  destruct (find _ _); [done |].
  destruct (_ !! out_path ctx d0) as [[| x] |]; [done | |].
  all: destruct (_ !! round_path ctx d0) as [[| y] |]; [done | |].
  all: injection Hx as <-; norm_world; by rewrite <- app_assoc.
Qed.

(** ** The whole run *)

Lemma DENSITIES_positive : Forall (λ e : string * Z, 0 < e.2) DENSITIES.
Proof. repeat constructor. Qed.

Lemma DENSITIES_NoDup : NoDup DENSITIES.*1.
Proof. apply (bool_decide_unpack _). by vm_compute. Qed.

Lemma main_run F ctx w :
  main F ctx w =
  match main_load ctx w with
  | (w0, Raised e) => (w0, Raised e)
  | (w0, Ok src) =>
      match for_each DENSITIES (main_entry F ctx src) w0 with
      | (w1, Raised e) => (w1, Raised e)
      | (w1, Ok _) => main_cleanup ctx w1
      end
  end.
Proof.
  unfold main, bind. destruct (main_load ctx w) as [w0 [src | e]]; [| done].
  by destruct (for_each _ _ w0) as [w1 [[] | e]].
Qed.

(** A run that returns went through the three phases. *)
Lemma main_ok_inv F ctx w w' :
  main F ctx w = (w', Ok tt) →
  ∃ fmt im w1,
    files w !! SRC ctx = Some (File (Picture fmt im)) ∧
    let crop := square_image (convert_image im RGBA) in
    let src := S (S (length (objs w))) in
    let w0 := World (objs w ++ [im; convert_image im RGBA; crop]) (files w)
                    (console w ++ [MsgOpening (SRC ctx);
                                   MsgCropped (width crop) (height crop)]) in
    for_each DENSITIES (main_entry F ctx src) w0 = (w1, Ok tt) ∧
    (src < length (objs w0))%nat ∧ objs w0 !!! src = crop ∧
    main_cleanup ctx w1 = (w', Ok tt).
Proof.
  rewrite main_run, main_load_run. cbv zeta.
  destruct (files w !! SRC ctx) as [[| [fmt im | b]] |]; try done.
  destruct (for_each _ _ _) as [w1 [[] | e]] eqn:Hloop; [| done].
  intros Hclean. exists fmt, im, w1. split; [done |]. cbv zeta.
  split; [done |]. norm_world. split; [rewrite length_app; simpl; lia |].
  split; [| done].
  rewrite lookup_total_app_r by lia.
  by replace (S (S (length (objs w))) - length (objs w))%nat with 2%nat by lia.
Qed.

Lemma main_cleanup_files ctx w w' :
  main_cleanup ctx w = (w', Ok tt) →
  files w' = delete (xml_path ctx) (files w) ∧ objs w' = objs w.
Proof.
  rewrite main_cleanup_run.
  destruct (files w !! xml_path ctx) as [[| x] |] eqn:E; [done | |].
  - by intros [= <-].
  - intros [= <-]. norm_world. by rewrite delete_id.
Qed.

Lemma outputs_of_elem ctx (l : list (string * Z)) p :
  p ∈ flat_map (λ e, [out_path ctx e.1; round_path ctx e.1]) l ↔
  ∃ e, e ∈ l ∧ (p = out_path ctx e.1 ∨ p = round_path ctx e.1).
Proof.
  rewrite list_elem_of_In, in_flat_map. split.
  - intros (e & He & Hp). exists e. rewrite list_elem_of_In. split; [done |].
    simpl in Hp. destruct Hp as [<- | [<- | []]]; auto.
  - intros (e & He & Hp). exists e. rewrite <- list_elem_of_In. split; [done |].
    simpl. destruct Hp as [-> | ->]; auto.
Qed.

Lemma outputs_of_NoDup ctx (l : list (string * Z)) :
  NoDup l.*1 → NoDup (flat_map (λ e, [out_path ctx e.1; round_path ctx e.1]) l).
Proof.
  induction l as [| e l IH]; intros Hnd; [constructor |].
  apply NoDup_cons in Hnd as [He Hnd]. simpl.
  assert (Hfresh : ∀ e', e' ∈ l → e.1 ≠ e'.1).
  { intros e' He' Heq. apply He. rewrite Heq. by apply list_elem_of_fmap_2. }
  apply NoDup_cons. split; [| apply NoDup_cons; split; [| by apply IH]].
  - intros [Heq | Hin]%elem_of_cons; [by apply out_round_ne in Heq |].
    apply outputs_of_elem in Hin as (e' & He' & [Heq | Heq]).
    + apply out_path_inj in Heq. by eapply Hfresh.
    + by apply out_round_ne in Heq.
  - intros (e' & He' & [Heq | Heq])%outputs_of_elem.
    + symmetry in Heq. by apply out_round_ne in Heq.
    + apply round_path_inj in Heq. by eapply Hfresh.
Qed.

Lemma out_dirs_NoDup ctx (l : list (string * Z)) :
  NoDup l.*1 → NoDup ((λ e, out_dir ctx e.1) <$> l).
Proof.
  intros Hnd.
  change ((λ e : string * Z, out_dir ctx e.1) <$> l)
    with ((out_dir ctx ∘ fst) <$> l).
  rewrite (list_fmap_compose fst (out_dir ctx)).
  apply NoDup_fmap_2; [| done]. intros d d'. apply out_dir_inj.
Qed.

Lemma out_dir_is_prefix ctx d : out_dir ctx d ∈ prefixes (out_dir ctx d).
Proof.
  unfold out_dir, os_path_join. rewrite prefixes_snoc.
  apply elem_of_app. right. by apply list_elem_of_singleton.
Qed.

Lemma xml_not_out_dir ctx d : xml_path ctx ≠ out_dir ctx d.
Proof.
  intros E. apply (xml_not_prefix ctx d). rewrite E. apply out_dir_is_prefix.
Qed.

(** What a run that returns leaves for each entry of the table. *)
Lemma main_entries_written F ctx w w' :
  main F ctx w = (w', Ok tt) →
  ∃ fmt im,
    files w !! SRC ctx = Some (File (Picture fmt im)) ∧
    let crop := square_image (convert_image im RGBA) in
    ∀ d s, (d, s) ∈ DENSITIES →
      (∀ q, q ∈ prefixes (out_dir ctx d) → files w' !! q = Some Dir) ∧
      files w' !! out_path ctx d =
        Some (File (Picture PNG (resize_image crop (s, s) (LANCZOS F)))) ∧
      files w' !! round_path ctx d =
        Some (File (Picture PNG (round_image F crop s))).
Proof.
  intros Hmain.
  destruct (main_ok_inv _ _ _ _ Hmain)
    as (fmt & im & w1 & Hsrc & Hloop & Hvalid & Hcrop & Hclean).
  exists fmt, im. split; [done |]. cbv zeta.
  pose proof (for_each_outputs _ _ _ _ _ _ DENSITIES_positive DENSITIES_NoDup
                Hvalid Hloop) as Hout.
  rewrite Hcrop in Hout.
  destruct (main_cleanup_files _ _ _ Hclean) as [Hfiles _].
  intros d s Hin. destruct (Hout d s Hin) as (H1 & H2 & H3).
  destruct (xml_not_output ctx d) as [Hx1 Hx2].
  rewrite Hfiles, !lookup_delete_ne by done.
  split; [| done]. intros q Hq. rewrite lookup_delete_ne; [by apply H3 |].
  intros <-. by apply xml_not_prefix in Hq.
Qed.

(** C3: after a run that returns, every entry [(d, s)] of the density
    table has its directory and, in it, [ic_launcher.png] and
    [ic_launcher_round.png], both PNG pictures of size [s × s], computed
    from the cropped source; the entries were processed in table order
    (the console shows it); there are ten distinct output files in five
    distinct directories; a 1000 × 600 source is cropped to 600 × 600. *)
Theorem main_writes_icons (F : imaging) (ctx : process) (w w' : world) :
  main F ctx w = (w', Ok tt) →
  ∃ fmt im,
    files w !! SRC ctx = Some (File (Picture fmt im)) ∧
    let crop := square_image (convert_image im RGBA) in
    (im_size im = (1000, 600) → im_size crop = (600, 600)) ∧
    (∀ d s, (d, s) ∈ DENSITIES →
       files w' !! out_dir ctx d = Some Dir ∧
       files w' !! out_path ctx d =
         Some (File (Picture PNG (resize_image crop (s, s) (LANCZOS F)))) ∧
       files w' !! round_path ctx d =
         Some (File (Picture PNG (round_image F crop s))) ∧
       im_size (resize_image crop (s, s) (LANCZOS F)) = (s, s) ∧
       im_size (round_image F crop s) = (s, s)) ∧
    (∃ tail,
       console w' =
       console w ++ [MsgOpening (SRC ctx); MsgCropped (width crop) (height crop)]
                 ++ flat_map (entry_messages ctx) DENSITIES ++ tail) ∧
    length (outputs ctx) = 10%nat ∧ NoDup (outputs ctx) ∧
    (∀ p, p ∈ outputs ctx → is_file (files w') p = true) ∧
    length ((λ e, out_dir ctx e.1) <$> DENSITIES) = 5%nat ∧
    NoDup ((λ e, out_dir ctx e.1) <$> DENSITIES).
Proof.
  intros Hmain.
  destruct (main_entries_written _ _ _ _ Hmain) as (fmt & im & Hsrc & Hentry).
  destruct (main_ok_inv _ _ _ _ Hmain)
    as (fmt' & im' & w1 & Hsrc' & Hloop & Hvalid & Hcrop & Hclean).
  rewrite Hsrc in Hsrc'. injection Hsrc' as <- <-.
  exists fmt, im. split; [done |]. cbv zeta in *.
  set (crop := square_image (convert_image im RGBA)) in *.
  split; [| split; [| split; [| split; [| split; [| split; [| split]]]]]].
  - intros Hsz. unfold crop. rewrite square_image_size. simpl.
    injection Hsz as -> ->. done.
  - intros d s Hin. destruct (Hentry d s Hin) as (H1 & H2 & H3).
    split; [apply H1, out_dir_is_prefix |].
    repeat split; try done.
    unfold im_size. by rewrite resize_image_width, resize_image_height.
  - pose proof (for_each_console _ _ _ _ _ _ DENSITIES_positive Hvalid Hloop) as Hcon.
    cbn [console] in Hcon. rewrite main_cleanup_run in Hclean.
    destruct (files w1 !! xml_path ctx) as [[| x] |]; [done | |];
      injection Hclean as <-; norm_world; rewrite Hcon, <- !app_assoc;
      eexists; reflexivity.
  - done.
  - apply outputs_of_NoDup, DENSITIES_NoDup.
  - intros p (e & He & Hp)%outputs_of_elem. destruct e as [d s].
    destruct (Hentry d s He) as (_ & H2 & H3). unfold is_file.
    destruct Hp as [-> | ->]; simpl.
    + unfold out_path, os_path_join. rewrite node_at_snoc.
      change (out_dir ctx d ++ ["ic_launcher.png"]) with (out_path ctx d).
      by rewrite H2.
    + unfold round_path, os_path_join. rewrite node_at_snoc.
      change (out_dir ctx d ++ ["ic_launcher_round.png"]) with (round_path ctx d).
      by rewrite H3.
  - done.
  - apply out_dirs_NoDup, DENSITIES_NoDup.
Qed.

Lemma main_writes_icons_witness :
  main demo_lib demo_ctx demo_world =
    ((main demo_lib demo_ctx demo_world).1, Ok tt) ∧
  files (main demo_lib demo_ctx demo_world).1
    !! out_path demo_ctx "mipmap-mdpi" =
  Some (File (Picture PNG
    (resize_image (square_image (convert_image demo_photo RGBA)) (48, 48)
                  (LANCZOS demo_lib)))).
Proof.
  assert (Hrun : main demo_lib demo_ctx demo_world =
                 ((main demo_lib demo_ctx demo_world).1, Ok tt)).
  { rewrite (surjective_pairing (main demo_lib demo_ctx demo_world)) at 1.
    f_equal; vm_compute; reflexivity. }
  split; [exact Hrun |].
  destruct (main_writes_icons _ _ _ _ Hrun) as (fmt & im & Hsrc & _ & Hentry & _).
  assert (Him : im = demo_photo).
  { assert (files demo_world !! SRC demo_ctx = Some (File (Picture JPEG demo_photo)))
      as Hdemo by apply lookup_insert_eq.
    rewrite Hdemo in Hsrc. by injection Hsrc as _ ->. }
  subst im. apply (Hentry "mipmap-mdpi" 48).
  apply elem_of_cons. by left.
Defined.

(** ** The legacy drawable *)

Lemma main_split F ctx w :
  main F ctx w = (main_icons F ctx >> main_cleanup ctx) w.
Proof.
  unfold main, main_icons, bind.
  destruct (main_load ctx w) as [w0 [src | e]]; [| done].
  by destruct (for_each _ _ w0) as [w1 [[] | e]].
Qed.

Lemma main_icons_effect F ctx w w1 r :
  main_icons F ctx w = (w1, r) →
  objs w `prefix_of` objs w1 ∧ keeps ctx DENSITIES.*1 (files w) (files w1).
Proof.
  unfold main_icons. intros H.
  apply bind_inv in H as [(w0 & src & Hload & Hloop) | (e & Hload & ->)].
  - rewrite main_load_run in Hload. cbv zeta in Hload.
    destruct (files w !! SRC ctx) as [[| [fmt im | b]] |]; try done.
    injection Hload as <- <-.
    apply for_each_effect in Hloop as (Ho & _ & Hk);
      [| apply DENSITIES_positive | norm_world; rewrite length_app; simpl; lia].
    cbn [objs files console] in Ho, Hk. split; [| done].
    etrans; [| done]. by eexists.
  - rewrite main_load_run in Hload. cbv zeta in Hload.
    destruct (files w !! SRC ctx) as [[| [fmt im | b]] |]; try done;
      injection Hload as <- <-; (split; [done | apply keeps_refl]).
Qed.

Lemma keeps_xml ctx ds fs fs' :
  keeps ctx ds fs fs' → fs' !! xml_path ctx = fs !! xml_path ctx.
Proof.
  intros Hk. specialize (Hk (xml_path ctx) (λ d _, xml_not_output ctx d)).
  destruct (fs !! xml_path ctx); [done |].
  destruct Hk as [Hk | [_ (d & _ & Hd)]]; [done |].
  by apply xml_not_prefix in Hd.
Qed.

(** C4: the legacy path is looked at once the icons are done, and only
    then.  If the icon phase raises, [main] raises there and the path is
    as it was.  If it returns, the path is still as it was before the run;
    a file there is deleted and is absent afterwards, an absent one is
    skipped without a word on the console, and in both cases the run
    returns. *)
Theorem main_removes_legacy_xml (F : imaging) (ctx : process) (w w1 : world)
    (r : outcome unit) :
  main_icons F ctx w = (w1, r) →
  files w1 !! xml_path ctx = files w !! xml_path ctx ∧
  match r with
  | Raised e => main F ctx w = (w1, Raised e)
  | Ok _ =>
      match files w !! xml_path ctx with
      | Some (File _) =>
          ∃ w', main F ctx w = (w', Ok tt) ∧
                files w' = delete (xml_path ctx) (files w1) ∧
                files w' !! xml_path ctx = None ∧
                console w' =
                console w1 ++ [MsgRemoved (xml_path ctx); MsgDone; MsgRemember]
      | None =>
          ∃ w', main F ctx w = (w', Ok tt) ∧ files w' = files w1 ∧
                console w' = console w1 ++ [MsgDone; MsgRemember]
      | Some Dir => main F ctx w = (w1, Raised (IsADirectoryError (xml_path ctx)))
      end
  end.
Proof.
  intros Hicons.
  destruct (main_icons_effect _ _ _ _ _ Hicons) as [_ Hk].
  apply keeps_xml in Hk. split; [done |].
  rewrite main_split. destruct r as [[] | e].
  - erewrite bind_run by done. rewrite main_cleanup_run, Hk.
    destruct (files w !! xml_path ctx) as [[| x] |]; [done | |].
    + eexists. split; [done |]. norm_world. split; [done |].
      split; [apply lookup_delete_eq | done].
    + eexists. split; [done |]. done.
  - by erewrite bind_raised by done.
Qed.

Lemma main_removes_legacy_xml_witness :
  main_icons demo_lib demo_ctx demo_world_xml =
    ((main_icons demo_lib demo_ctx demo_world_xml).1, Ok tt) ∧
  ∃ w', main demo_lib demo_ctx demo_world_xml = (w', Ok tt) ∧
        files w' !! xml_path demo_ctx = None.
Proof.
  assert (Hrun : main_icons demo_lib demo_ctx demo_world_xml =
                 ((main_icons demo_lib demo_ctx demo_world_xml).1, Ok tt)).
  { rewrite (surjective_pairing (main_icons demo_lib demo_ctx demo_world_xml)) at 1.
    f_equal; vm_compute; reflexivity. }
  split; [exact Hrun |].
  destruct (main_removes_legacy_xml _ _ _ _ _ Hrun) as [_ H].
  assert (Hxml : files demo_world_xml !! xml_path demo_ctx =
                 Some (File (Blob "<vector/>"))) by apply lookup_insert_eq.
  rewrite Hxml in H. destruct H as (w' & Hmain & _ & Hgone & _).
  exists w'. split; [exact Hmain | exact Hgone].
Defined.

(** ** Failures *)

Lemma main_load_ok ctx w w0 src :
  main_load ctx w = (w0, Ok src) →
  ∃ fmt im,
    files w !! SRC ctx = Some (File (Picture fmt im)) ∧
    files w0 = files w ∧ objs w `prefix_of` objs w0 ∧
    (src < length (objs w0))%nat ∧
    objs w0 !! src = Some (square_image (convert_image im RGBA)).
Proof.
  rewrite main_load_run. cbv zeta.
  destruct (files w !! SRC ctx) as [[| [fmt im | b]] |]; try done.
  intros [= <- <-]. exists fmt, im. norm_world.
  split; [done |]. split; [done |]. split; [by eexists |].
  split; [rewrite length_app; simpl; lia |].
  rewrite lookup_app_r by lia.
  by replace (S (S (length (objs w))) - length (objs w))%nat with 2%nat by lia.
Qed.

Lemma main_load_raised ctx w w' e :
  main_load ctx w = (w', Raised e) →
  files w' = files w ∧ objs w' = objs w ∧
  match files w !! SRC ctx with
  | None => e = missing_error (files w) (SRC ctx)
  | Some Dir => e = IsADirectoryError (SRC ctx)
  | Some (File (Blob _)) => e = OSError (SRC ctx)
  | Some (File (Picture _ _)) => False
  end.
Proof.
  rewrite main_load_run. cbv zeta.
  destruct (files w !! SRC ctx) as [[| [fmt im | b]] |]; try done;
    by intros [= <- <-].
Qed.

Lemma main_entry_raised F ctx src d s w w' e :
  0 < s → (src < length (objs w))%nat →
  main_entry F ctx src (d, s) w = (w', Raised e) →
  (∃ q, q ∈ prefixes (out_dir ctx d) ∧ is_file (files w) q = true ∧
        e = mkdir_error q (out_dir ctx d) ∧ w' = w) ∨
  e = IsADirectoryError (out_path ctx d) ∨
  e = IsADirectoryError (round_path ctx d).
Proof.
  intros Hs Hsrc. rewrite main_entry_run by done. cbv zeta.
  destruct (find _ _) as [q |] eqn:Hfind.
  { intros [= <- <-]. left. exists q. apply find_some in Hfind as [Hq Hf].
    by rewrite list_elem_of_In. }
  destruct (_ !! out_path ctx d) as [[| x] |]; [intros [= <- <-]; auto | |].
  all: destruct (_ !! round_path ctx d) as [[| y] |]; intros [= <- <-]; auto.
Qed.

Lemma main_raised_keeps F ctx w w' e :
  main F ctx w = (w', Raised e) →
  keeps ctx DENSITIES.*1 (files w) (files w').
Proof.
  rewrite main_split. intros H.
  apply bind_inv in H as [(w1 & [] & Hicons & Hclean) | (e' & Hicons & _)].
  - rewrite main_cleanup_run in Hclean.
    destruct (files w1 !! xml_path ctx) as [[| x] |]; try done.
    injection Hclean as <- _. by eapply main_icons_effect.
  - by eapply main_icons_effect.
Qed.

(** The calls that work on the files leave the world as it was when they
    raise, and change nothing but the files when they return. *)
Lemma os_makedirs_raised p w w' e :
  os_makedirs p w = (w', Raised e) → w' = w.
Proof. unfold os_makedirs. destruct (find _ _); by intros [= <-]. Qed.

Lemma os_makedirs_ok p w w' :
  os_makedirs p w = (w', Ok tt) →
  w' = set_files w (files w ∪ dirs_at (prefixes p)).
Proof. unfold os_makedirs. destruct (find _ _); by intros [= <-]. Qed.

Lemma Image_save_raised img p f w w' e :
  Image_save img p f w = (w', Raised e) → w' = w.
Proof.
  unfold Image_save, bind, deref, write_file.
  destruct (node_at _ (parent p)) as [[| c] |]; try by intros [= <-].
  destruct (node_at _ p) as [[| c] |]; by intros [= <-].
Qed.

Lemma Image_save_ok img p f w w' :
  Image_save img p f w = (w', Ok tt) →
  w' = set_files w (<[p := File (Picture f (objs w !!! img))]> (files w)).
Proof.
  unfold Image_save, bind, deref, write_file.
  destruct (node_at _ (parent p)) as [[| c] |]; try done.
  destruct (node_at _ p) as [[| c] |]; by intros [= <-].
Qed.

Lemma os_remove_raised p w w' e :
  os_remove p w = (w', Raised e) → w' = w.
Proof.
  unfold os_remove. destruct (node_at _ _) as [[| c] |]; by intros [= <-].
Qed.

(** [main_load] raises exactly when [Image.open] does. *)
Lemma main_load_stops ctx w w' e :
  main_load ctx w = (w', Raised e) ↔
  Image_open (SRC ctx) (set_console w (console w ++ [MsgOpening (SRC ctx)]))
    = (w', Raised e).
Proof.
  rewrite main_load_run. cbv zeta. unfold Image_open. norm_world.
  rewrite SRC_eq, node_at_snoc.
  by destruct (files w !! _) as [[| [fmt im | b]] |].
Qed.

(** An entry raises exactly when one of its three calls on the files does:
    resizing, copying, masking and printing always return. *)
Lemma main_entry_stops F ctx src d s w w' e :
  0 < s →
  main_entry F ctx src (d, s) w = (w', Raised e) ↔
  stops_at_makedirs ctx (d, s) w w' e ∨
  stops_at_save F ctx src (d, s) w w' e ∨
  stops_at_round_save F ctx src (d, s) w w' e.
Proof.
  intros Hs. unfold stops_at_makedirs, stops_at_save, stops_at_round_save.
  cbn [fst snd]. unfold main_entry. fold (out_dir ctx d).
  fold (out_path ctx d). fold (round_path ctx d). split.
  - intros H.
    apply bind_inv in H as [(w1 & [] & H1 & H) | (e1 & H1 & [= <-])]; [| by left].
    right.
    apply bind_inv in H as [(w2 & square & H2 & H) | (e2 & H2 & _)]; cycle 1.
    { by rewrite Image_resize_run in H2 by done. }
    apply bind_inv in H as [(w3 & [] & H3 & H) | (e3 & H3 & [= <-])];
      [| left; by exists w1, w2, square].
    right.
    apply bind_inv in H as [(w4 & [] & H4 & H) | (e4 & H4 & _)]; [| done].
    apply bind_inv in H as [(w5 & copy & H5 & H) | (e5 & H5 & _)]; [| done].
    apply bind_inv in H as [(w6 & round_img & H6 & H) | (e6 & H6 & _)]; cycle 1.
    { by rewrite make_round_run in H6 by done. }
    apply bind_inv in H as [(w7 & [] & H7 & H) | (e7 & H7 & [= <-])]; [done |].
    by exists w1, w2, w3, w4, w5, w6, square, copy, round_img.
  - intros [H | [(w1 & w2 & square & H1 & H2 & H3)
               | (w1 & w2 & w3 & w4 & w5 & w6 & square & copy & round_img
                  & H1 & H2 & H3 & H4 & H5 & H6 & H7)]].
    + by erewrite bind_raised by done.
    + erewrite bind_run by done. erewrite bind_run by done.
      by erewrite bind_raised by done.
    + erewrite bind_run by done. erewrite bind_run by done.
      erewrite bind_run by done. erewrite bind_run by done.
      erewrite bind_run by done. erewrite bind_run by done.
      by erewrite bind_raised by done.
Qed.

(** What is on disk where an entry stopped: nothing new; the directory;
    the directory and the regular icon. *)
Lemma stops_at_save_files F ctx src d s w w' e :
  stops_at_save F ctx src (d, s) w w' e →
  files w' = files w ∪ dirs_at (prefixes (out_dir ctx d)).
Proof.
  intros (w1 & w2 & square & H1 & H2 & H3). cbn [fst snd] in *.
  apply os_makedirs_ok in H1 as ->. apply Image_save_raised in H3 as ->.
  unfold Image_resize, bind, deref in H2. norm_world.
  destruct (_ && _); [by injection H2 as <- |].
  destruct (_ || _); [done | by injection H2 as <-].
Qed.

Lemma stops_at_round_save_files F ctx src d s w w' e :
  0 < s →
  stops_at_round_save F ctx src (d, s) w w' e →
  files w' =
  <[out_path ctx d :=
      File (Picture PNG (resize_image (objs w !!! src) (s, s) (LANCZOS F)))]>
    (files w ∪ dirs_at (prefixes (out_dir ctx d))).
Proof.
  intros Hs (w1 & w2 & w3 & w4 & w5 & w6 & square & copy & round_img
             & H1 & H2 & H3 & H4 & H5 & H6 & H7). cbn [fst snd] in *.
  apply os_makedirs_ok in H1 as ->.
  rewrite Image_resize_run in H2 by done. injection H2 as <- <-.
  apply Image_save_ok in H3 as ->. injection H4 as <-.
  injection H5 as <- _. apply make_round_frame in H6 as (_ & H6 & _).
  apply Image_save_raised in H7 as ->. rewrite H6. norm_world.
  by rewrite lookup_total_snoc.
Qed.

(** C5: [main] has no handler, and raises exactly when one of its five
    calls on the files raises, with that call's exception and in the state
    that call left: [Image.open] on the source (line 41); for one entry of
    the table, the entries before it having returned, [os.makedirs]
    (line 47), the [save] of the regular icon (line 52) or the [save] of
    the round icon (line 58); or [os.remove] on the legacy path (line 64),
    all entries having returned.  Nothing runs after the failing call and
    nothing is undone.  A failed opening leaves the files as they were.
    Where an entry stops, the files are those the entries before it left,
    plus the directory of the entry once [os.makedirs] returned, plus its
    regular icon once that was saved; the entries before it have their
    directory and their two icons on disk as written.  Where the removal
    stops, all ten icons are on disk.  In every case, whatever existed
    before the run and is not an icon path is unchanged, the legacy path
    included. *)
Theorem main_aborts (F : imaging) (ctx : process) (w w' : world) (e : exn) :
  (main F ctx w = (w', Raised e) ↔
     (Image_open (SRC ctx) (set_console w (console w ++ [MsgOpening (SRC ctx)]))
        = (w', Raised e) ∧
      files w' = files w) ∨
     (∃ w0 src done d s rest w1,
        main_load ctx w = (w0, Ok src) ∧
        DENSITIES = done ++ (d, s) :: rest ∧
        for_each done (main_entry F ctx src) w0 = (w1, Ok tt) ∧
        let crop := objs w0 !!! src in
        let icon := File (Picture PNG (resize_image crop (s, s) (LANCZOS F))) in
        let made := files w1 ∪ dirs_at (prefixes (out_dir ctx d)) in
        (stops_at_makedirs ctx (d, s) w1 w' e ∧ files w' = files w1 ∨
         stops_at_save F ctx src (d, s) w1 w' e ∧ files w' = made ∨
         stops_at_round_save F ctx src (d, s) w1 w' e ∧
           files w' = <[out_path ctx d := icon]> made) ∧
        ∀ d' s', (d', s') ∈ done → settled F ctx crop (d', s') (files w')) ∨
     (∃ w0 src w1,
        main_load ctx w = (w0, Ok src) ∧
        for_each DENSITIES (main_entry F ctx src) w0 = (w1, Ok tt) ∧
        os_path_exists (xml_path ctx) w1 = (w1, Ok true) ∧
        os_remove (xml_path ctx) w1 = (w', Raised e) ∧
        files w' = files w1 ∧
        ∀ d' s', (d', s') ∈ DENSITIES →
          settled F ctx (objs w0 !!! src) (d', s') (files w'))) ∧
  (main F ctx w = (w', Raised e) →
   keeps ctx DENSITIES.*1 (files w) (files w') ∧
   files w' !! xml_path ctx = files w !! xml_path ctx).
Proof.
  split; cycle 1.
  { intros Hmain. apply main_raised_keeps in Hmain.
    split; [done | by eapply keeps_xml]. }
  split.
  - unfold main. intros H.
    apply bind_inv in H as [(w0 & src & Hload & H) | (e0 & Hload & [= <-])]; cycle 1.
    { left. split; [by apply main_load_stops |].
      by apply main_load_raised in Hload as [? _]. }
    right.
    destruct (main_load_ok _ _ _ _ Hload) as (fmt & im & _ & _ & _ & Hvalid & _).
    apply bind_inv in H as [(w1 & [] & Hloop & Hclean) | (e1 & Hloop & [= <-])].
    + right. exists w0, src, w1. split; [done |]. split; [done |].
      rewrite main_cleanup_run in Hclean.
      destruct (files w1 !! xml_path ctx) as [[| x] |] eqn:E; try done.
      injection Hclean as <- <-.
      assert (Hnode : node_at (files w1) (xml_path ctx) = Some Dir)
        by (by rewrite xml_path_eq, node_at_snoc, <- xml_path_eq).
      split; [by unfold os_path_exists; rewrite Hnode |].
      split; [by unfold os_remove; rewrite Hnode |].
      split; [done |]. intros d' s' Hin.
      destruct (for_each_outputs _ _ _ _ _ _ DENSITIES_positive DENSITIES_NoDup
                  Hvalid Hloop d' s' Hin) as (H1 & H2 & H3).
      by split.
    + left.
      apply for_each_raised in Hloop as (dn & [d s] & rest & w2 & Hd & Hdn & Hx).
      exists w0, src, dn, d, s, rest, w2.
      split; [done |]. split; [done |]. split; [done |]. cbv zeta.
      pose proof DENSITIES_positive as Hpos. pose proof DENSITIES_NoDup as Hnd.
      rewrite Hd in Hpos, Hnd. rewrite fmap_app, fmap_cons in Hnd.
      apply Forall_app in Hpos as [Hpos1 [Hs _]%Forall_cons].
      apply NoDup_app in Hnd as (Hnd1 & Hdisj & _). simpl in Hs.
      destruct (for_each_effect _ _ _ _ _ _ _ Hpos1 Hvalid Hdn) as (Ho & _ & _).
      assert (Hvalid1 : (src < length (objs w2))%nat)
        by (apply prefix_length in Ho; lia).
      assert (Him : objs w2 !!! src = objs w0 !!! src).
      { destruct Ho as [k ->]. by apply lookup_total_app_l. }
      split.
      * apply main_entry_stops in Hx as Hstop; [| done].
        destruct Hstop as [Hstop | [Hstop | Hstop]].
        -- left. split; [done |]. by apply os_makedirs_raised in Hstop as ->.
        -- right. left. split; [done |]. by eapply stops_at_save_files.
        -- right. right. split; [done |]. rewrite <- Him.
           by eapply stops_at_round_save_files.
      * intros d' s' Hin.
        destruct (for_each_outputs _ _ _ _ _ _ Hpos1 Hnd1 Hvalid Hdn d' s' Hin)
          as (H1 & H2 & H3).
        destruct (main_entry_effect _ _ _ _ _ _ _ _ Hs Hvalid1 Hx) as (_ & _ & Hk & _).
        assert (Hne : d' ≠ d).
        { intros ->. apply (Hdisj d); [| apply elem_of_cons; by left].
          by apply (list_elem_of_fmap_2 fst) in Hin. }
        split; [| split]; cbn [fst snd].
        -- intros q Hq. specialize (Hk q). rewrite (H3 q Hq) in Hk. apply Hk.
           intros ? _. by eapply prefix_not_output.
        -- specialize (Hk (out_path ctx d')). rewrite H1 in Hk. apply Hk.
           intros ? ->%list_elem_of_singleton.
           split; [by intros ?%out_path_inj | apply out_round_ne].
        -- specialize (Hk (round_path ctx d')). rewrite H2 in Hk. apply Hk.
           intros ? ->%list_elem_of_singleton.
           split; [intros E; symmetry in E; by apply out_round_ne in E
                  | by intros ?%round_path_inj].
  - rewrite main_run.
    intros [[Hopen _]
           | [(w0 & src & dn & d & s & rest & w1 & Hload & Hd & Hdn & Hstop & _)
             | (w0 & src & w1 & Hload & Hloop & Hex & Hrm & _)]].
    + apply main_load_stops in Hopen. by rewrite Hopen.
    + rewrite Hload, Hd.
      pose proof DENSITIES_positive as Hpos. rewrite Hd in Hpos.
      apply Forall_app in Hpos as [_ [Hs _]%Forall_cons]. simpl in Hs.
      assert (Hx : main_entry F ctx src (d, s) w1 = (w', Raised e)).
      { apply main_entry_stops; [done |]. cbv zeta in Hstop.
        destruct Hstop as [[? _] | [[? _] | [? _]]]; auto. }
      by rewrite (for_each_raised_at dn rest (d, s) _ _ _ _ _ Hdn Hx).
    + rewrite Hload, Hloop, main_cleanup_run.
      unfold os_path_exists in Hex. unfold os_remove in Hrm.
      rewrite xml_path_eq, node_at_snoc, <- xml_path_eq in Hex, Hrm.
      destruct (files w1 !! xml_path ctx) as [[| x] |]; [done | done |].
      by injection Hex.
Qed.

(** ** Running the script again *)

Lemma find_is_file_dirs (fs : gmap path node) (p : path) :
  (∀ q, q ∈ prefixes p → fs !! q = Some Dir) →
  find (is_file fs) (prefixes p) = None.
Proof.
  intros Hdirs. destruct (find _ _) as [q |] eqn:E; [| done].
  apply find_some in E as [Hq Hf]. apply list_elem_of_In in Hq.
  unfold is_file in Hf. destruct q as [| a q].
  { apply prefixes_length in Hq. simpl in Hq. lia. }
  simpl in Hf. by rewrite (Hdirs _ Hq) in Hf.
Qed.

Lemma makedirs_id (fs : gmap path node) (p : path) :
  (∀ q, q ∈ prefixes p → fs !! q = Some Dir) →
  fs ∪ dirs_at (prefixes p) = fs.
Proof.
  intros Hdirs. apply map_eq. intros q. rewrite makedirs_lookup.
  destruct (fs !! q) eqn:E; [done |].
  case_decide as Hq; [| done]. by rewrite (Hdirs _ Hq) in E.
Qed.

Lemma entry_files_settled F ctx im d s fs :
  settled F ctx im (d, s) fs → entry_files F ctx im (d, s) fs = fs.
Proof.
  intros (Hdirs & Hout & Hround). unfold entry_files. simpl in *.
  rewrite makedirs_id by done. by rewrite (insert_id _ _ _ Hout), insert_id.
Qed.

Lemma main_entry_settled F ctx src d s w :
  0 < s → (src < length (objs w))%nat →
  settled F ctx (objs w !!! src) (d, s) (files w) →
  ∃ w', main_entry F ctx src (d, s) w = (w', Ok tt) ∧ files w' = files w.
Proof.
  intros Hs Hsrc Hset. pose proof Hset as (Hdirs & Hout & Hround).
  simpl in Hdirs, Hout, Hround.
  rewrite main_entry_run by done. cbv zeta.
  rewrite find_is_file_dirs, makedirs_id by done.
  rewrite Hout, (insert_id _ _ _ Hout), Hround.
  eexists. split; [done |]. norm_world. by apply entry_files_settled.
Qed.

Lemma for_each_settled F ctx src l w :
  Forall (λ e, 0 < e.2) l → (src < length (objs w))%nat →
  (∀ e, e ∈ l → settled F ctx (objs w !!! src) e (files w)) →
  ∃ w', for_each l (main_entry F ctx src) w = (w', Ok tt) ∧
        files w' = files w.
Proof.
  intros Hpos. revert w.
  induction Hpos as [| [d s] l Hs Hpos IH]; intros w Hsrc Hset.
  { by exists w. }
  simpl in Hs.
  destruct (main_entry_settled F ctx src d s w Hs Hsrc) as (w1 & Hx & Hf1).
  { apply Hset. apply elem_of_cons. by left. }
  destruct (main_entry_effect _ _ _ _ _ _ _ _ Hs Hsrc Hx) as (Ho & _).
  destruct (IH w1) as (w' & Hrest & Hf').
  - apply prefix_length in Ho. lia.
  - intros e He. rewrite Hf1.
    replace (objs w1 !!! src) with (objs w !!! src).
    + apply Hset. apply elem_of_cons. by right.
    + destruct Ho as [k ->]. by rewrite lookup_total_app_l.
  - exists w'. split; [| congruence].
    rewrite for_each_cons. by erewrite bind_run by done.
Qed.

(** C7: a second run, started where a run that returned left off, returns
    as well and leaves exactly the same files: the same names in the same
    places, here with the same contents, the outputs of the first run
    having been overwritten. *)
Theorem main_twice (F : imaging) (ctx : process) (w w1 : world) :
  main F ctx w = (w1, Ok tt) →
  ∃ w2, main F ctx w1 = (w2, Ok tt) ∧
        files w2 = files w1 ∧ dom (files w2) = dom (files w1).
Proof.
  intros Hmain.
  destruct (main_entries_written _ _ _ _ Hmain) as (fmt & im & Hsrc & Hentry).
  destruct (main_ok_inv _ _ _ _ Hmain)
    as (fmt' & im' & wl & Hsrc' & Hloop & Hvalid & _ & Hclean).
  rewrite Hsrc in Hsrc'. injection Hsrc' as <- <-. cbv zeta in *.
  set (crop := square_image (convert_image im RGBA)) in *.
  destruct (main_cleanup_files _ _ _ Hclean) as [Hfiles _].
  destruct (for_each_effect _ _ _ _ _ _ _ DENSITIES_positive Hvalid Hloop)
    as (_ & _ & Hk).
  cbn [files] in Hk.
  (* the source is still there *)
  assert (Hsrc1 : files w1 !! SRC ctx = Some (File (Picture fmt im))).
  { rewrite Hfiles, lookup_delete_ne by (symmetry; apply SRC_not_xml).
    specialize (Hk (SRC ctx) (λ d _, SRC_not_output ctx d)).
    by rewrite Hsrc in Hk. }
  (* and the legacy path is not *)
  assert (Hxml1 : files w1 !! xml_path ctx = None)
    by (rewrite Hfiles; apply lookup_delete_eq).
  rewrite main_run, main_load_run, Hsrc1. cbv zeta. fold crop.
  set (w0 := World _ _ _).
  destruct (for_each_settled F ctx (S (S (length (objs w1)))) DENSITIES w0
              DENSITIES_positive) as (w2 & Hloop2 & Hf2).
  { unfold w0. norm_world. rewrite length_app. simpl. lia. }
  { intros [d s] He. unfold w0. norm_world.
    rewrite lookup_total_app_r by lia.
    replace (S (S (length (objs w1))) - length (objs w1))%nat with 2%nat by lia.
    simpl. fold crop. destruct (Hentry d s He) as (H1 & H2 & H3).
    by split. }
  rewrite Hloop2, main_cleanup_run, Hf2. unfold w0. norm_world.
  rewrite Hxml1. eexists. split; [done |]. norm_world. by rewrite Hf2.
Qed.

Lemma main_twice_witness :
  main demo_lib demo_ctx demo_world_xml =
    ((main demo_lib demo_ctx demo_world_xml).1, Ok tt) ∧
  ∃ w2, main demo_lib demo_ctx (main demo_lib demo_ctx demo_world_xml).1 = (w2, Ok tt) ∧
        files w2 = files (main demo_lib demo_ctx demo_world_xml).1.
Proof.
  assert (Hrun : main demo_lib demo_ctx demo_world_xml =
                 ((main demo_lib demo_ctx demo_world_xml).1, Ok tt)).
  { rewrite (surjective_pairing (main demo_lib demo_ctx demo_world_xml)) at 1.
    f_equal; vm_compute; reflexivity. }
  split; [exact Hrun |].
  destruct (main_twice _ _ _ _ Hrun) as (w2 & Hmain & Hfiles & _).
  exists w2. split; [exact Hmain | exact Hfiles].
Defined.

(** ** The objects of the store *)

(** C8: [make_round] returns a new object and changes none that existed,
    whatever its arguments and its outcome; in [main], the cropped source
    is the same object with the same contents before every iteration, and
    every icon of a run that returns is computed from it. *)
Theorem make_round_keeps_source (F : imaging) (ctx : process) :
  (∀ w img s w' r,
     make_round F img s w = (w', r) →
     objs w `prefix_of` objs w' ∧ files w' = files w ∧
     ∀ out, r = Ok out → (length (objs w) ≤ out < length (objs w'))%nat) ∧
  (∀ w w0 src,
     main_load ctx w = (w0, Ok src) →
     ∃ crop,
       objs w0 !! src = Some crop ∧
       (∀ done rest wk r,
          DENSITIES = done ++ rest →
          for_each done (main_entry F ctx src) w0 = (wk, r) →
          objs wk !! src = Some crop) ∧
       (∀ w', main F ctx w = (w', Ok tt) →
          ∀ d s, (d, s) ∈ DENSITIES →
            files w' !! out_path ctx d =
              Some (File (Picture PNG (resize_image crop (s, s) (LANCZOS F)))) ∧
            files w' !! round_path ctx d =
              Some (File (Picture PNG (round_image F crop s))))).
Proof.
  split.
  - intros w img s w' r H.
    destruct (make_round_frame _ _ _ _ _ _ H) as (Ho & Hf & _ & Hnew). done.
  - intros w w0 src Hload.
    destruct (main_load_ok _ _ _ _ Hload) as (fmt & im & Hsrc & _ & _ & Hvalid & Hcrop).
    eexists. split; [done |]. split.
    + intros dn rest wk r Hd Hdn.
      pose proof DENSITIES_positive as Hpos. rewrite Hd in Hpos.
      apply Forall_app in Hpos as [Hpos _].
      destruct (for_each_effect _ _ _ _ _ _ _ Hpos Hvalid Hdn) as ([k ->] & _).
      by apply lookup_app_l_Some.
    + intros w' Hmain d s Hin.
      destruct (main_entries_written _ _ _ _ Hmain) as (fmt' & im' & Hsrc' & Hentry).
      rewrite Hsrc in Hsrc'. injection Hsrc' as <- <-.
      by destruct (Hentry d s Hin) as (_ & ? & ?).
Qed.

(** ** The environment *)

(** C6, as the specification words it, fails: [expanduser] reads [HOME],
    so two processes that differ in the environment only can work on
    different paths. *)
Lemma environment_is_consulted :
  ¬ (∀ ctx1 ctx2, pw_dir ctx1 = pw_dir ctx2 →
       SRC ctx1 = SRC ctx2 ∧ RES ctx1 = RES ctx2).
Proof.
  intros H. destruct (H alice_ctx bob_ctx eq_refl) as [Hsrc _].
  vm_compute in Hsrc. discriminate Hsrc.
Qed.

(** The files a run that returns leaves, computed from the files it
    started from. *)
Lemma for_each_files F ctx src l w w' :
  Forall (λ e, 0 < e.2) l → (src < length (objs w))%nat →
  for_each l (main_entry F ctx src) w = (w', Ok tt) →
  files w' = foldl (λ fs e, entry_files F ctx (objs w !!! src) e fs) (files w) l.
Proof.
  intros Hpos. revert w.
  induction Hpos as [| [d s] l Hs Hpos IH]; intros w Hsrc H.
  { by injection H as <-. }
  rewrite for_each_cons in H. simpl in Hs.
  apply bind_inv in H as [(w1 & [] & Hx & Hrest) | (e' & _ & [=])].
  destruct (main_entry_effect _ _ _ _ _ _ _ _ Hs Hsrc Hx) as (Ho & _ & _ & Hok).
  destruct (Hok eq_refl) as [_ Hfiles].
  assert (Hsrc1 : (src < length (objs w1))%nat)
    by (apply prefix_length in Ho; lia).
  assert (Him : objs w1 !!! src = objs w !!! src).
  { destruct Ho as [k ->]. by apply lookup_total_app_l. }
  rewrite (IH w1 Hsrc1 Hrest), Him, Hfiles. done.
Qed.

Lemma main_files F ctx w w' :
  main F ctx w = (w', Ok tt) →
  ∃ fmt im,
    files w !! SRC ctx = Some (File (Picture fmt im)) ∧
    files w' =
    delete (xml_path ctx)
      (foldl (λ fs e, entry_files F ctx (square_image (convert_image im RGBA)) e fs)
             (files w) DENSITIES).
Proof.
  intros Hmain.
  destruct (main_ok_inv _ _ _ _ Hmain)
    as (fmt & im & w1 & Hsrc & Hloop & Hvalid & Hcrop & Hclean).
  exists fmt, im. split; [done |].
  apply for_each_files in Hloop; [| apply DENSITIES_positive | done].
  rewrite Hcrop in Hloop. cbn [files] in Hloop.
  destruct (main_cleanup_files _ _ _ Hclean) as [-> _]. by rewrite Hloop.
Qed.

(** C6, amended: the paths of the script depend on the environment through
    [HOME] alone, which [expanduser] reads.  For two processes whose
    environments agree on [HOME] (and with the same password database) the
    input path, the output root, the ten output paths and the legacy path
    are the same; and when the two runs start from the same files and both
    return, they leave the same files.  (Whether a run returns is not
    compared: the console is modelled without its encoding, which the
    interpreter takes from the environment.) *)
Theorem main_paths_from_HOME (F : imaging) (ctx1 ctx2 : process) :
  environ ctx1 !! "HOME" = environ ctx2 !! "HOME" →
  pw_dir ctx1 = pw_dir ctx2 →
  SRC ctx1 = SRC ctx2 ∧ RES ctx1 = RES ctx2 ∧
  outputs ctx1 = outputs ctx2 ∧ xml_path ctx1 = xml_path ctx2 ∧
  ∀ w1 w2 w1' w2',
    files w1 = files w2 →
    main F ctx1 w1 = (w1', Ok tt) →
    main F ctx2 w2 = (w2', Ok tt) →
    files w1' = files w2'.
Proof.
  intros Henv Hpw.
  assert (Hhome : userhome ctx1 = userhome ctx2)
    by (unfold userhome; by rewrite Henv, Hpw).
  assert (Hsrc : SRC ctx1 = SRC ctx2) by (unfold SRC, expanduser; simpl; by rewrite Hhome).
  assert (Hres : RES ctx1 = RES ctx2) by (unfold RES, expanduser; simpl; by rewrite Hhome).
  split; [done |]. split; [done |].
  split; [unfold outputs, out_path, round_path, out_dir; by rewrite Hres |].
  split; [unfold xml_path; by rewrite Hres |].
  intros w1 w2 w1' w2' Hfiles Hrun1 Hrun2.
  apply main_files in Hrun1 as (fmt1 & im1 & Hsrc1 & ->).
  apply main_files in Hrun2 as (fmt2 & im2 & Hsrc2 & ->).
  rewrite Hsrc, Hfiles, Hsrc2 in Hsrc1. injection Hsrc1 as <- <-.
  rewrite Hfiles.
  unfold entry_files, xml_path, out_path, round_path, out_dir.
  by rewrite Hres.
Qed.

Lemma main_paths_from_HOME_witness :
  environ demo_ctx !! "HOME" = environ demo_ctx_lang !! "HOME" ∧
  pw_dir demo_ctx = pw_dir demo_ctx_lang ∧
  SRC demo_ctx = SRC demo_ctx_lang ∧ RES demo_ctx = RES demo_ctx_lang ∧
  outputs demo_ctx = outputs demo_ctx_lang ∧
  files (main demo_lib demo_ctx demo_world_xml).1 =
  files (main demo_lib demo_ctx_lang demo_world_xml).1.
Proof.
  assert (H1 : environ demo_ctx !! "HOME" = environ demo_ctx_lang !! "HOME")
    by (vm_compute; reflexivity).
  assert (Hrun1 : main demo_lib demo_ctx demo_world_xml =
                  ((main demo_lib demo_ctx demo_world_xml).1, Ok tt)).
  { rewrite (surjective_pairing (main demo_lib demo_ctx demo_world_xml)) at 1.
    f_equal; vm_compute; reflexivity. }
  assert (Hrun2 : main demo_lib demo_ctx_lang demo_world_xml =
                  ((main demo_lib demo_ctx_lang demo_world_xml).1, Ok tt)).
  { rewrite (surjective_pairing (main demo_lib demo_ctx_lang demo_world_xml)) at 1.
    f_equal; vm_compute; reflexivity. }
  destruct (main_paths_from_HOME demo_lib demo_ctx demo_ctx_lang H1 eq_refl)
    as (Hsrc & Hres & Hout & _ & Hfiles).
  split; [exact H1 |]. split; [reflexivity |].
  split; [exact Hsrc |]. split; [exact Hres |]. split; [exact Hout |].
  exact (Hfiles _ _ _ _ eq_refl Hrun1 Hrun2).
Defined.

(** ** The script at work *)

Example square_box_demo : square_box demo_photo = (200, 0, 800, 600).
Proof. reflexivity. Qed.

Example square_box_portrait :
  square_box (gradient RGBA 3 8) = (0, 2, 3, 5).
Proof. reflexivity. Qed.

(** The mask under the sample raster of [demo_lib]. *)
Example round_mask_4 :
  mask_row 4 <$> seqZ 0 4 =
  [ [0; 255; 255; 0];
    [255; 255; 255; 255];
    [255; 255; 255; 255];
    [0; 255; 255; 0] ].
Proof. reflexivity. Qed.

Example round_mask_1 : mask_row 1 0 = [255].
Proof. reflexivity. Qed.

Example demo_run :
  let w' := (main demo_lib demo_ctx demo_world_xml).1 in
  (main demo_lib demo_ctx demo_world_xml).2 = Ok tt ∧
  holds_picture (files w') (out_path demo_ctx "mipmap-mdpi") (48, 48) = true ∧
  holds_picture (files w') (round_path demo_ctx "mipmap-mdpi") (48, 48) = true ∧
  holds_picture (files w') (out_path demo_ctx "mipmap-xxxhdpi") (192, 192) = true ∧
  holds_picture (files w') (round_path demo_ctx "mipmap-xxxhdpi") (192, 192) = true ∧
  forallb (is_file (files w')) (outputs demo_ctx) = true ∧
  is_file (files w') (xml_path demo_ctx) = false ∧
  length (console w') = 15%nat.
Proof. vm_compute. repeat split. Qed.

Example missing_source :
  main demo_lib demo_ctx (World [] ∅ []) =
  (World [] ∅ [MsgOpening (SRC demo_ctx)],
   Raised (FileNotFoundError (SRC demo_ctx))).
Proof. vm_compute. reflexivity. Qed.

Example blocked_directory :
  let w' := (main demo_lib demo_ctx demo_world_blocked).1 in
  (main demo_lib demo_ctx demo_world_blocked).2 =
    Raised (FileExistsError (out_dir demo_ctx "mipmap-hdpi")) ∧
  holds_picture (files w') (out_path demo_ctx "mipmap-mdpi") (48, 48) = true ∧
  holds_picture (files w') (round_path demo_ctx "mipmap-mdpi") (48, 48) = true ∧
  is_file (files w') (out_path demo_ctx "mipmap-xhdpi") = false ∧
  is_file (files w') (xml_path demo_ctx) = true.
Proof. vm_compute. repeat split. Qed.

Example source_below_a_file :
  main demo_lib demo_ctx demo_world_no_storage =
  (set_console demo_world_no_storage [MsgOpening (SRC demo_ctx)],
   Raised (NotADirectoryError (SRC demo_ctx))).
Proof. vm_compute. reflexivity. Qed.

Example blocked_round_icon :
  let w' := (main demo_lib demo_ctx demo_world_round_dir).1 in
  (main demo_lib demo_ctx demo_world_round_dir).2 =
    Raised (IsADirectoryError (round_path demo_ctx "mipmap-mdpi")) ∧
  holds_picture (files w') (out_path demo_ctx "mipmap-mdpi") (48, 48) = true ∧
  is_dir (files w') (round_path demo_ctx "mipmap-mdpi") = true ∧
  is_file (files w') (out_path demo_ctx "mipmap-hdpi") = false.
Proof. vm_compute. repeat split. Qed.

Example sample_filter_keeps_alpha :
  alpha (data (round_image demo_lib (gradient RGBA 6 4) 4) 2 2) = 255.
Proof. reflexivity. Qed.

(** * Further properties of the script *)

(** ** [make_square] *)

(** X1: the window [make_square] cuts is centred and lies inside the
    source.  The margins left and right of it (above and below it) differ
    by one pixel at most, the smaller one first; a landscape image keeps
    all its rows and a portrait image all its columns; the mode is kept;
    and every pixel of the result is a pixel of the source, never the
    zero fill of [crop]. *)
Theorem make_square_centred (w : world) (img : ref) :
  let im := objs w !!! img in
  let side := Z.min (width im) (height im) in
  let left := (width im - side) `div` 2 in
  let top := (height im - side) `div` 2 in
  ∃ w' r,
    make_square img w = (w', Ok r) ∧
    let out := objs w' !!! r in
    im_mode out = im_mode im ∧
    0 ≤ left ≤ width im - side - left ≤ left + 1 ∧
    0 ≤ top ≤ height im - side - top ≤ top + 1 ∧
    (height im ≤ width im → top = 0 ∧ height out = height im) ∧
    (width im ≤ height im → left = 0 ∧ width out = width im) ∧
    ∀ x y, 0 ≤ x < side → 0 ≤ y < side →
      ∃ p, getpixel out x y = Some p ∧
           getpixel im (x + left) (y + top) = Some p.
Proof.
  intros im side left top. eexists _, _. split; [apply make_square_run |].
  norm_world. rewrite lookup_total_snoc. fold im.
  pose proof (square_image_size im) as Hsz. unfold im_size in Hsz.
  fold side in Hsz. injection Hsz as Hw Hh.
  assert (Hl : 0 ≤ left ≤ width im - side - left ≤ left + 1).
  { unfold left.
    pose proof (Z.div_mod (width im - side) 2 ltac:(lia)).
    pose proof (Z.mod_pos_bound (width im - side) 2 ltac:(lia)).
    assert (0 ≤ width im - side) by lia.
    assert (0 ≤ (width im - side) `div` 2) by (apply Z.div_pos; lia). lia. }
  assert (Ht : 0 ≤ top ≤ height im - side - top ≤ top + 1).
  { unfold top.
    pose proof (Z.div_mod (height im - side) 2 ltac:(lia)).
    pose proof (Z.mod_pos_bound (height im - side) 2 ltac:(lia)).
    assert (0 ≤ height im - side) by lia.
    assert (0 ≤ (height im - side) `div` 2) by (apply Z.div_pos; lia). lia. }
  split; [done |]. split; [done |]. split; [done |].
  split; [| split].
  - intros Hle. assert (side = height im) as Hs by lia.
    split; [| by rewrite <- Hs].
    unfold top. rewrite Hs, Z.sub_diag. done.
  - intros Hle. assert (side = width im) as Hs by lia.
    split; [| by rewrite <- Hs].
    unfold left. rewrite Hs, Z.sub_diag. done.
  - intros x y Hx Hy.
    rewrite (square_image_getpixel im x y Hx Hy). fold side left top.
    unfold getpixel.
    rewrite (proj2 (in_bounds_iff im (x + left) (y + top))) by lia.
    by eexists.
Qed.

(** ** [make_round] *)

(** X2: [make_round] has no size of its own to fall back on: for a size
    that is negative, or zero on an image that is not empty, it raises
    [ValueError] (from [resize], or from [Image.new] for a negative size on
    an image of that very size), and it changes neither the files nor any
    object that existed. *)
Theorem make_round_rejects_size (F : imaging) (w : world) (img : ref) (s : Z) :
  s ≤ 0 →
  ¬ (s = 0 ∧ width (objs w !!! img) = 0 ∧ height (objs w !!! img) = 0) →
  ∃ w' msg,
    make_round F img s w = (w', Raised (ValueError msg)) ∧
    files w' = files w ∧ objs w `prefix_of` objs w'.
Proof.
  intros Hs Hne.
  destruct (decide (width (objs w !!! img) = s ∧ height (objs w !!! img) = s))
    as [[Hw Hh] | Hdiff].
  - assert (s < 0) by lia. unfold make_round.
    erewrite bind_run by (by apply Image_resize_same).
    unfold alloc; norm_world.
    erewrite bind_raised; cycle 1.
    { unfold Image_new. simpl. destruct (s <? 0) eqn:E; [done | lia]. }
    eexists _, _. split; [done |]. norm_world. split; [done | by eexists].
  - unfold make_round.
    erewrite bind_raised by (apply Image_resize_raises; [lia | done]).
    eexists _, _. split; [done |]. done.
Qed.

Lemma make_round_rejects_size_witness :
  0 ≤ 0 ∧
  ∃ w' msg,
    make_round demo_lib 0%nat 0 gradient_world = (w', Raised (ValueError msg)) ∧
    files w' = files gradient_world ∧ objs gradient_world `prefix_of` objs w'.
Proof.
  split; [reflexivity |].
  apply (make_round_rejects_size demo_lib gradient_world 0%nat 0).
  - reflexivity.
  - intros (_ & Hw & _). vm_compute in Hw. discriminate Hw.
Defined.

(** X3: an image without alpha band (mode ["L"] or ["RGB"], as a decoded
    JPEG is) comes out of [make_round] fully opaque wherever the ellipse
    covers it and fully transparent elsewhere: [paste] converts it to the
    ["RGBA"] canvas, which gives every pixel the alpha 255.  This holds for
    every resampling filter and every raster of the ellipse. *)
Theorem make_round_opaque_without_alpha (F : imaging) (w : world) (img : ref) (s : Z) :
  0 < s →
  im_mode (objs w !!! img) ≠ RGBA →
  ∃ w' r,
    make_round F img s w = (w', Ok r) ∧
    let out := objs w' !!! r in
    im_mode out = RGBA ∧
    ∀ x y, 0 ≤ x < s → 0 ≤ y < s →
      alpha (data out x y) = if ELLIPSE F (0, 0, s, s) x y then 255 else 0.
Proof.
  intros Hs Hm.
  destruct (make_round_result F img s w Hs) as (w' & Hrun & _ & Hout).
  exists w', (S (S (length (objs w)))). split; [done |].
  cbv zeta. rewrite Hout. split; [done |].
  intros x y Hx Hy. rewrite round_image_data by done.
  destruct (ELLIPSE F _ _ _); [| done].
  apply match_mode_alpha. by rewrite resize_image_mode.
Qed.

Lemma make_round_opaque_without_alpha_witness :
  0 < 4 ∧ im_mode (objs rgb_world !!! 0%nat) ≠ RGBA ∧
  ∃ w' r,
    make_round demo_lib 0%nat 4 rgb_world = (w', Ok r) ∧
    let out := objs w' !!! r in
    im_mode out = RGBA ∧
    ∀ x y, 0 ≤ x < 4 → 0 ≤ y < 4 →
      alpha (data out x y) = if ELLIPSE demo_lib (0, 0, 4, 4) x y then 255 else 0.
Proof.
  assert (Hm : im_mode (objs rgb_world !!! 0%nat) ≠ RGBA)
    by (intros E; vm_compute in E; discriminate E).
  split; [reflexivity |]. split; [exact Hm |].
  exact (make_round_opaque_without_alpha demo_lib rgb_world 0%nat 4 eq_refl Hm).
Defined.

(** ** [main]: what it prints *)

(** X4: a run that returns prints, in this order: the source it opens; the
    size of the crop, a square of side [min(w, h)] of the source; for each
    density, in table order, the regular and then the round icon with the
    size of the entry; the legacy path if there was something to remove
    there; and the two closing lines. *)
Theorem main_console (F : imaging) (ctx : process) (w w' : world) :
  main F ctx w = (w', Ok tt) →
  ∃ fmt im,
    files w !! SRC ctx = Some (File (Picture fmt im)) ∧
    let side := Z.min (width im) (height im) in
    console w' =
    console w ++ [MsgOpening (SRC ctx); MsgCropped side side]
              ++ flat_map (entry_messages ctx) DENSITIES
              ++ removal_messages ctx (files w)
              ++ [MsgDone; MsgRemember].
Proof.
  intros Hmain.
  destruct (main_ok_inv _ _ _ _ Hmain)
    as (fmt & im & w1 & Hsrc & Hloop & Hvalid & _ & Hclean).
  exists fmt, im. split; [done |]. cbv zeta in *.
  pose proof (for_each_console _ _ _ _ _ _ DENSITIES_positive Hvalid Hloop) as Hcon.
  destruct (for_each_effect _ _ _ _ _ _ _ DENSITIES_positive Hvalid Hloop)
    as (_ & _ & Hk).
  apply keeps_xml in Hk. cbn [console files] in Hcon, Hk.
  assert (Hw : width (square_image (convert_image im RGBA)) =
               Z.min (width im) (height im))
    by (unfold square_image, square_box; simpl; lia).
  assert (Hh : height (square_image (convert_image im RGBA)) =
               Z.min (width im) (height im))
    by (unfold square_image, square_box; simpl; lia).
  rewrite Hw, Hh in Hcon.
  unfold removal_messages. rewrite main_cleanup_run, Hk in Hclean.
  destruct (files w !! xml_path ctx) as [[| x] |]; [done | |];
    injection Hclean as <-; norm_world; rewrite Hcon, <- !app_assoc; done.
Qed.

Lemma main_console_witness :
  main demo_lib demo_ctx demo_world_xml =
    ((main demo_lib demo_ctx demo_world_xml).1, Ok tt) ∧
  length (console (main demo_lib demo_ctx demo_world_xml).1) = 15%nat.
Proof.
  assert (Hrun : main demo_lib demo_ctx demo_world_xml =
                 ((main demo_lib demo_ctx demo_world_xml).1, Ok tt)).
  { rewrite (surjective_pairing (main demo_lib demo_ctx demo_world_xml)) at 1.
    f_equal; vm_compute; reflexivity. }
  split; [exact Hrun |].
  destruct (main_console _ _ _ _ Hrun) as (fmt & im & _ & Hcon).
  cbv zeta in Hcon. rewrite Hcon.
  assert (Hxml : files demo_world_xml !! xml_path demo_ctx =
                 Some (File (Blob "<vector/>"))) by apply lookup_insert_eq.
  unfold removal_messages. rewrite Hxml. reflexivity.
Defined.

(** ** [main]: what it leaves alone *)

Lemma main_keeps F ctx w w' r :
  main F ctx w = (w', r) →
  ∀ p, p ∉ outputs ctx → p ≠ xml_path ctx →
    match files w !! p with
    | Some n => files w' !! p = Some n
    | None =>
        files w' !! p = None ∨
        (files w' !! p = Some Dir ∧
         ∃ e, e ∈ DENSITIES ∧ p ∈ prefixes (out_dir ctx e.1))
    end.
Proof.
  intros Hmain p Hout Hxml.
  assert (∃ fs1, keeps ctx DENSITIES.*1 (files w) fs1 ∧
                 files w' !! p = fs1 !! p) as (fs1 & Hk & ->).
  { rewrite main_split in Hmain.
    apply bind_inv in Hmain as [(w1 & [] & Hicons & Hclean) | (e' & Hicons & _)].
    - destruct (main_icons_effect _ _ _ _ _ Hicons) as [_ Hk].
      exists (files w1). split; [done |].
      rewrite main_cleanup_run in Hclean.
      destruct (files w1 !! xml_path ctx) as [[| x] |] eqn:E;
        injection Hclean as <- _; norm_world; [done | | done].
      by rewrite lookup_delete_ne.
    - exists (files w'). split; [by eapply main_icons_effect | done]. }
  assert (Hp : ∀ d, d ∈ DENSITIES.*1 → p ≠ out_path ctx d ∧ p ≠ round_path ctx d).
  { intros d (e & -> & He)%list_elem_of_fmap.
    split; intros ->; apply Hout, outputs_of_elem; exists e; auto. }
  specialize (Hk p Hp). destruct (files w !! p); [done |].
  destruct Hk as [? | [? (d & (e & -> & He)%list_elem_of_fmap & Hq)]]; [by left |].
  right. split; [done |]. by exists e.
Qed.

(** X5: whatever its outcome, [main] touches nothing but its own paths.
    The source file is as it was.  Apart from the ten icon paths and the
    legacy path, every file and directory that existed is unchanged, and
    the only thing that can appear is a directory on the way to an output
    directory. *)
Theorem main_touches_only_its_paths (F : imaging) (ctx : process) (w w' : world)
    (r : outcome unit) :
  main F ctx w = (w', r) →
  files w' !! SRC ctx = files w !! SRC ctx ∧
  ∀ p, p ∉ outputs ctx → p ≠ xml_path ctx →
    match files w !! p with
    | Some n => files w' !! p = Some n
    | None =>
        files w' !! p = None ∨
        (files w' !! p = Some Dir ∧
         ∃ e, e ∈ DENSITIES ∧ p ∈ prefixes (out_dir ctx e.1))
    end.
Proof.
  intros Hmain. split; [| by eapply main_keeps].
  destruct (files w !! SRC ctx) as [n |] eqn:Hsrc.
  - pose proof (main_keeps _ _ _ _ _ Hmain (SRC ctx)) as Hk.
    rewrite Hsrc in Hk. apply Hk; [| apply SRC_not_xml].
    intros (e & _ & [H | H])%outputs_of_elem; by apply SRC_not_output in H.
  - rewrite main_run, main_load_run, Hsrc in Hmain. cbv zeta in Hmain.
    injection Hmain as <- _. done.
Qed.

Lemma main_touches_only_its_paths_witness :
  main demo_lib demo_ctx demo_world_blocked =
    ((main demo_lib demo_ctx demo_world_blocked).1,
     (main demo_lib demo_ctx demo_world_blocked).2) ∧
  files (main demo_lib demo_ctx demo_world_blocked).1 !! SRC demo_ctx =
  files demo_world_blocked !! SRC demo_ctx.
Proof.
  assert (Hrun : main demo_lib demo_ctx demo_world_blocked =
                 ((main demo_lib demo_ctx demo_world_blocked).1,
                  (main demo_lib demo_ctx demo_world_blocked).2))
    by apply surjective_pairing.
  split; [exact Hrun |].
  exact (proj1 (main_touches_only_its_paths _ _ _ _ _ Hrun)).
Defined.

(** ** [main]: the source *)

Lemma take_out_dir_not_SRC ctx d n : take n (out_dir ctx d) ≠ SRC ctx.
Proof.
  intros E. apply (f_equal (λ l, l !! length (home ctx))) in E.
  rewrite SRC_eq, <- app_assoc, (lookup_app_r (home ctx)) in E by done.
  rewrite Nat.sub_diag, lookup_take in E.
  unfold out_dir, os_path_join in E.
  rewrite RES_eq, <- app_assoc, (lookup_app_r (home ctx)) in E by done.
  rewrite Nat.sub_diag in E. by case_decide.
Qed.

(** X6: when the source cannot be opened, [main] stops after its first
    line: it raises [FileNotFoundError] if nothing is at the path and no
    file sits on the way to it, [NotADirectoryError] if nothing is at the
    path and a file sits on the way, [IsADirectoryError] if a directory is
    at the path, and the imaging library's [OSError] if the file there is
    no picture it can read; only the opening line was printed, and the
    files are as they were.  When the source is a picture, no exception
    that [main] raises is about the source path. *)
Theorem main_open_errors (F : imaging) (ctx : process) (w : world) :
  let stopped e :=
    ∃ w', main F ctx w = (w', Raised e) ∧ files w' = files w ∧
          console w' = console w ++ [MsgOpening (SRC ctx)] in
  match files w !! SRC ctx with
  | None =>
      if existsb (is_file (files w)) (prefixes (parent (SRC ctx)))
      then stopped (NotADirectoryError (SRC ctx))
      else stopped (FileNotFoundError (SRC ctx))
  | Some Dir => stopped (IsADirectoryError (SRC ctx))
  | Some (File (Blob _)) => stopped (OSError (SRC ctx))
  | Some (File (Picture _ _)) =>
      ∀ w' e, main F ctx w = (w', Raised e) → exn_path e ≠ Some (SRC ctx)
  end.
Proof.
  cbv zeta. rewrite main_run, main_load_run. cbv zeta. unfold missing_error.
  destruct (files w !! SRC ctx) as [[| [fmt im | b]] |] eqn:Hsrc;
    [by eexists | | by eexists | destruct (existsb _ _); by eexists].
  set (w0 := World _ _ _). set (src := S (S (length (objs w)))).
  assert (Hvalid : (src < length (objs w0))%nat)
    by (unfold w0, src; norm_world; rewrite length_app; simpl; lia).
  intros w' e H.
  destruct (for_each _ _ w0) as [w1 [[] | e1]] eqn:Hloop.
  - rewrite main_cleanup_run in H.
    destruct (files w1 !! xml_path ctx) as [[| x] |]; try done.
    injection H as _ <-. simpl.
    intros [= E]. symmetry in E. by apply SRC_not_xml in E.
  - injection H as <- <-.
    apply for_each_raised in Hloop as (dn & [d s] & rest & w2 & Hd & Hdn & Hx).
    pose proof DENSITIES_positive as Hpos. rewrite Hd in Hpos.
    apply Forall_app in Hpos as [Hpos1 [Hs _]%Forall_cons]. simpl in Hs.
    destruct (for_each_effect _ _ _ _ _ _ _ Hpos1 Hvalid Hdn) as (Ho & _).
    assert (Hvalid2 : (src < length (objs w2))%nat)
      by (apply prefix_length in Ho; lia).
    destruct (main_entry_raised _ _ _ _ _ _ _ _ Hs Hvalid2 Hx)
      as [(q & Hq & _ & -> & _) | [-> | ->]]; simpl.
    + unfold mkdir_error. case_decide; simpl; intros [= E].
      * apply (take_out_dir_not_SRC ctx d (length (out_dir ctx d))).
        by rewrite firstn_all.
      * by apply take_out_dir_not_SRC in E.
    + intros [= E]. symmetry in E. by apply SRC_not_output in E.
    + intros [= E]. symmetry in E. by apply SRC_not_output in E.
Qed.

(** X7: the icons of a run that returns depend on the source picture
    only: two runs on the same source, whatever else the files hold (old
    icons, the legacy file, other directories) and whatever the store and
    the console hold, leave the same contents at each of the ten icon
    paths. *)
Theorem main_icons_from_source_only (F : imaging) (ctx : process)
    (w1 w2 w1' w2' : world) :
  files w1 !! SRC ctx = files w2 !! SRC ctx →
  main F ctx w1 = (w1', Ok tt) →
  main F ctx w2 = (w2', Ok tt) →
  ∀ p, p ∈ outputs ctx →
    files w1' !! p = files w2' !! p ∧ is_file (files w1') p = true.
Proof.
  intros Hsame H1 H2 p (e & He & Hp)%outputs_of_elem.
  destruct e as [d s]. simpl in Hp.
  destruct (main_entries_written _ _ _ _ H1) as (f1 & im1 & Hs1 & Hw1).
  destruct (main_entries_written _ _ _ _ H2) as (f2 & im2 & Hs2 & Hw2).
  rewrite Hsame, Hs2 in Hs1. injection Hs1 as <- <-.
  destruct (Hw1 d s He) as (_ & Ha1 & Hb1).
  destruct (Hw2 d s He) as (_ & Ha2 & Hb2).
  unfold is_file.
  destruct Hp as [-> | ->].
  - split; [by rewrite Ha1, Ha2 |].
    unfold out_path, os_path_join. rewrite node_at_snoc.
    change (out_dir ctx d ++ ["ic_launcher.png"]) with (out_path ctx d).
    by rewrite Ha1.
  - split; [by rewrite Hb1, Hb2 |].
    unfold round_path, os_path_join. rewrite node_at_snoc.
    change (out_dir ctx d ++ ["ic_launcher_round.png"]) with (round_path ctx d).
    by rewrite Hb1.
Qed.

Lemma main_icons_from_source_only_witness :
  files demo_world !! SRC demo_ctx = files demo_world_xml !! SRC demo_ctx ∧
  main demo_lib demo_ctx demo_world =
    ((main demo_lib demo_ctx demo_world).1, Ok tt) ∧
  main demo_lib demo_ctx demo_world_xml =
    ((main demo_lib demo_ctx demo_world_xml).1, Ok tt) ∧
  ∀ p, p ∈ outputs demo_ctx →
    files (main demo_lib demo_ctx demo_world).1 !! p =
    files (main demo_lib demo_ctx demo_world_xml).1 !! p ∧
    is_file (files (main demo_lib demo_ctx demo_world).1) p = true.
Proof.
  assert (Hsame : files demo_world !! SRC demo_ctx =
                  files demo_world_xml !! SRC demo_ctx).
  { symmetry. apply lookup_insert_ne. symmetry. apply SRC_not_xml. }
  assert (H1 : main demo_lib demo_ctx demo_world =
               ((main demo_lib demo_ctx demo_world).1, Ok tt)).
  { rewrite (surjective_pairing (main demo_lib demo_ctx demo_world)) at 1.
    f_equal; vm_compute; reflexivity. }
  assert (H2 : main demo_lib demo_ctx demo_world_xml =
               ((main demo_lib demo_ctx demo_world_xml).1, Ok tt)).
  { rewrite (surjective_pairing (main demo_lib demo_ctx demo_world_xml)) at 1.
    f_equal; vm_compute; reflexivity. }
  split; [exact Hsame |]. split; [exact H1 |]. split; [exact H2 |].
  exact (main_icons_from_source_only _ _ _ _ _ _ Hsame H1 H2).
Defined.

(** ** [main]: when it returns *)

Lemma find_is_file_clear (fs : gmap path node) (ps : list path) :
  (∀ q, q ∈ ps → is_file fs q = false) → find (is_file fs) ps = None.
Proof.
  intros H. destruct (find _ _) as [q |] eqn:E; [| done].
  apply find_some in E as [Hq Hf]. apply list_elem_of_In in Hq.
  by rewrite (H q Hq) in Hf.
Qed.

Lemma is_file_lookup (fs : gmap path node) (q : path) :
  q ≠ [] → is_file fs q = match fs !! q with Some (File _) => true | _ => false end.
Proof. intros Hq. unfold is_file. by destruct q. Qed.

Lemma prefix_nonempty (p q : path) : q ∈ prefixes p → q ≠ [].
Proof. intros Hq%prefixes_length ->. simpl in Hq. lia. Qed.

Lemma makedirs_lookup_out ctx d d' fs :
  (fs ∪ dirs_at (prefixes (out_dir ctx d))) !! out_path ctx d' = fs !! out_path ctx d'.
Proof.
  rewrite makedirs_lookup. destruct (fs !! out_path ctx d'); [done |].
  case_decide as Hq; [| done]. by apply (prefix_not_output ctx d d') in Hq as [? _].
Qed.

Lemma makedirs_lookup_round ctx d d' fs :
  (fs ∪ dirs_at (prefixes (out_dir ctx d))) !! round_path ctx d' = fs !! round_path ctx d'.
Proof.
  rewrite makedirs_lookup. destruct (fs !! round_path ctx d'); [done |].
  case_decide as Hq; [| done]. by apply (prefix_not_output ctx d d') in Hq as [_ ?].
Qed.

(** One entry returns exactly when nothing stands in its way. *)
Lemma main_entry_returns_iff F ctx src d s w :
  0 < s → (src < length (objs w))%nat →
  (∃ w', main_entry F ctx src (d, s) w = (w', Ok tt)) ↔ entry_ready ctx d (files w).
Proof.
  intros Hs Hsrc. rewrite main_entry_run by done. cbv zeta.
  split.
  - intros [w' H].
    destruct (find _ _) as [q |] eqn:Hfind; [done |].
    rewrite makedirs_lookup_out in H.
    rewrite lookup_insert_ne, makedirs_lookup_round in H by apply out_round_ne.
    split; [| split].
    + intros q Hq. apply (find_none _ _ Hfind). by apply list_elem_of_In.
    + intros E. by rewrite E in H.
    + intros E. rewrite E in H. by destruct (files w !! out_path ctx d) as [[| x] |].
  - intros (Hclear & Hout & Hround).
    rewrite find_is_file_clear by done.
    rewrite makedirs_lookup_out.
    rewrite lookup_insert_ne, makedirs_lookup_round by apply out_round_ne.
    destruct (files w !! out_path ctx d) as [[| x] |]; [done | |];
      (destruct (files w !! round_path ctx d) as [[| y] |]; [done | |]);
      by eexists.
Qed.

(** Readiness of an entry is not affected by what other entries do. *)
Lemma entry_ready_keeps ctx ds d fs fs' :
  keeps ctx ds fs fs' → d ∉ ds →
  entry_ready ctx d fs ↔ entry_ready ctx d fs'.
Proof.
  intros Hk Hd.
  assert (Hout : ∀ d', d' ∈ ds →
            out_path ctx d ≠ out_path ctx d' ∧ out_path ctx d ≠ round_path ctx d').
  { intros d' Hd'. split; [| apply out_round_ne].
    intros ->%out_path_inj. done. }
  assert (Hround : ∀ d', d' ∈ ds →
            round_path ctx d ≠ out_path ctx d' ∧ round_path ctx d ≠ round_path ctx d').
  { intros d' Hd'. split; [intros E; symmetry in E; by apply out_round_ne in E |].
    intros ->%round_path_inj. done. }
  assert (Hpre : ∀ q, q ∈ prefixes (out_dir ctx d) → ∀ d', d' ∈ ds →
            q ≠ out_path ctx d' ∧ q ≠ round_path ctx d').
  { intros q Hq d' _. by eapply prefix_not_output. }
  split; intros (Hclear & Ho & Hr); (split; [| split]).
  - intros q Hq. specialize (Hclear q Hq). specialize (Hk q (Hpre q Hq)).
    rewrite is_file_lookup in * by (by eapply prefix_nonempty).
    destruct (fs !! q) as [n |]; [by rewrite Hk |].
    by destruct Hk as [-> | [-> _]].
  - specialize (Hk _ Hout). destruct (fs !! out_path ctx d) as [n |].
    + rewrite Hk. congruence.
    + destruct Hk as [-> | [_ (d' & _ & Hq)]]; [done |].
      by apply (prefix_not_output ctx d' d) in Hq as [? _].
  - specialize (Hk _ Hround). destruct (fs !! round_path ctx d) as [n |].
    + rewrite Hk. congruence.
    + destruct Hk as [-> | [_ (d' & _ & Hq)]]; [done |].
      by apply (prefix_not_output ctx d' d) in Hq as [_ ?].
  - intros q Hq. specialize (Hclear q Hq). specialize (Hk q (Hpre q Hq)).
    rewrite is_file_lookup in * by (by eapply prefix_nonempty).
    destruct (fs !! q) as [[| c] |]; [done | | done].
    by rewrite Hk in Hclear.
  - specialize (Hk _ Hout). intros E. rewrite E in Hk. done.
  - specialize (Hk _ Hround). intros E. rewrite E in Hk. done.
Qed.

Lemma for_each_returns_iff F ctx src l w :
  Forall (λ e, 0 < e.2) l → NoDup l.*1 → (src < length (objs w))%nat →
  (∃ w', for_each l (main_entry F ctx src) w = (w', Ok tt)) ↔
  (∀ e, e ∈ l → entry_ready ctx e.1 (files w)).
Proof.
  intros Hpos. revert w.
  induction Hpos as [| [d s] l Hs Hpos IH]; intros w Hnd Hsrc.
  { split; [by intros _ e ?%elem_of_nil | intros _; by exists w]. }
  simpl in Hs. apply NoDup_cons in Hnd as [Hd Hnd]. simpl in Hd.
  assert (Hstep : ∀ w1, main_entry F ctx src (d, s) w = (w1, Ok tt) →
    (∃ w', for_each l (main_entry F ctx src) w1 = (w', Ok tt)) ↔
    (∀ e, e ∈ l → entry_ready ctx e.1 (files w))).
  { intros w1 Hx.
    destruct (main_entry_effect _ _ _ _ _ _ _ _ Hs Hsrc Hx) as (Ho & _ & Hk & _).
    rewrite (IH w1) by (done || (apply prefix_length in Ho; lia)).
    assert (Hfresh : ∀ e, e ∈ l → e.1 ∉ [d]).
    { intros e He Heq%list_elem_of_singleton. apply Hd. rewrite <- Heq.
      by apply list_elem_of_fmap_2. }
    split; intros H e He; specialize (H e He).
    - by apply (proj2 (entry_ready_keeps ctx [d] e.1 _ _ Hk (Hfresh e He))).
    - by apply (proj1 (entry_ready_keeps ctx [d] e.1 _ _ Hk (Hfresh e He))). }
  rewrite for_each_cons. split.
  - intros [w' H].
    apply bind_inv in H as [(w1 & [] & Hx & Hrest) | (e' & _ & [=])].
    intros e [-> | He]%elem_of_cons.
    + apply (main_entry_returns_iff F ctx src d s w Hs Hsrc). by exists w1.
    + apply (Hstep w1 Hx); [by exists w' | done].
  - intros H.
    destruct (proj2 (main_entry_returns_iff F ctx src d s w Hs Hsrc)) as [w1 Hx].
    { apply (H (d, s)). apply elem_of_cons. by left. }
    destruct (proj2 (Hstep w1 Hx)) as [w' Hrest].
    { intros e He. apply H. apply elem_of_cons. by right. }
    exists w'. by erewrite bind_run by done.
Qed.

(** X8: [main] returns exactly when the files are ready for it: the source
    is a picture, no file sits on the way to one of the five output
    directories, no directory sits at one of the ten icon paths, and the
    legacy path is not a directory.  In every other case it raises. *)
Theorem main_returns_iff_ready (F : imaging) (ctx : process) (w : world) :
  (∃ w', main F ctx w = (w', Ok tt)) ↔ ready ctx (files w).
Proof.
  split.
  - intros [w' Hmain].
    destruct (main_ok_inv _ _ _ _ Hmain)
      as (fmt & im & w1 & Hsrc & Hloop & Hvalid & _ & Hclean).
    cbv zeta in *. split; [by exists fmt, im |].
    destruct (for_each_effect _ _ _ _ _ _ _ DENSITIES_positive Hvalid Hloop)
      as (_ & _ & Hk).
    apply keeps_xml in Hk. cbn [files] in Hk. split.
    + apply (for_each_returns_iff F ctx _ DENSITIES _ DENSITIES_positive
               DENSITIES_NoDup Hvalid). by exists w1.
    + rewrite <- Hk. rewrite main_cleanup_run in Hclean.
      intros E. by rewrite E in Hclean.
  - intros ((fmt & im & Hsrc) & Hentries & Hxml).
    rewrite main_run, main_load_run, Hsrc. cbv zeta.
    set (w0 := World _ _ _). set (src := S (S (length (objs w)))).
    assert (Hvalid : (src < length (objs w0))%nat)
      by (unfold w0, src; norm_world; rewrite length_app; simpl; lia).
    destruct (proj2 (for_each_returns_iff F ctx src DENSITIES w0 DENSITIES_positive
                       DENSITIES_NoDup Hvalid) Hentries) as [w1 Hloop].
    rewrite Hloop.
    destruct (for_each_effect _ _ _ _ _ _ _ DENSITIES_positive Hvalid Hloop)
      as (_ & _ & Hk).
    apply keeps_xml in Hk. unfold w0 in Hk. cbn [files] in Hk.
    rewrite main_cleanup_run, Hk.
    destruct (files w !! xml_path ctx) as [[| x] |] eqn:E.
    + by destruct Hxml.
    + by eexists.
    + by eexists.
Qed.

(** ** [main]: the icons and the paths it leaves *)

(** X9: the round icon of an entry is its regular icon seen through the
    mask: the two files of a density hold pictures of mode ["RGBA"] such
    that each pixel of the round one is the pixel of the regular one where
    the ellipse covers it, and [(0, 0, 0, 0)] elsewhere. *)
Theorem round_icon_is_masked_icon (F : imaging) (ctx : process) (w w' : world) :
  main F ctx w = (w', Ok tt) →
  ∀ d s, (d, s) ∈ DENSITIES →
    ∃ icon round,
      files w' !! out_path ctx d = Some (File (Picture PNG icon)) ∧
      files w' !! round_path ctx d = Some (File (Picture PNG round)) ∧
      im_mode icon = RGBA ∧ im_mode round = RGBA ∧
      ∀ x y, 0 ≤ x < s → 0 ≤ y < s →
        data round x y =
        if ELLIPSE F (0, 0, s, s) x y then data icon x y else [0; 0; 0; 0].
Proof.
  intros Hmain d s Hin.
  destruct (main_entries_written _ _ _ _ Hmain) as (fmt & im & _ & Hentry).
  destruct (Hentry d s Hin) as (_ & H1 & H2).
  assert (Hs : 0 < s).
  { pose proof DENSITIES_positive as Hpos. rewrite Forall_forall in Hpos.
    by apply (Hpos (d, s)). }
  eexists _, _. split; [done |]. split; [done |].
  assert (Hmode : im_mode (resize_image (square_image (convert_image im RGBA))
                                        (s, s) (LANCZOS F)) = RGBA)
    by (by rewrite resize_image_mode).
  split; [done |]. split; [done |].
  intros x y Hx Hy. rewrite round_image_data by done.
  by rewrite (match_mode_same _ _ Hmode).
Qed.

Lemma round_icon_is_masked_icon_witness :
  main demo_lib demo_ctx demo_world =
    ((main demo_lib demo_ctx demo_world).1, Ok tt) ∧
  ∃ icon round,
    files (main demo_lib demo_ctx demo_world).1 !! out_path demo_ctx "mipmap-hdpi" =
      Some (File (Picture PNG icon)) ∧
    files (main demo_lib demo_ctx demo_world).1 !! round_path demo_ctx "mipmap-hdpi" =
      Some (File (Picture PNG round)) ∧
    im_mode icon = RGBA ∧ im_mode round = RGBA ∧
    ∀ x y, 0 ≤ x < 72 → 0 ≤ y < 72 →
      data round x y =
      if ELLIPSE demo_lib (0, 0, 72, 72) x y then data icon x y else [0; 0; 0; 0].
Proof.
  assert (Hrun : main demo_lib demo_ctx demo_world =
                 ((main demo_lib demo_ctx demo_world).1, Ok tt)).
  { rewrite (surjective_pairing (main demo_lib demo_ctx demo_world)) at 1.
    f_equal; vm_compute; reflexivity. }
  split; [exact Hrun |].
  apply (round_icon_is_masked_icon _ _ _ _ Hrun "mipmap-hdpi" 72).
  apply elem_of_cons. right. apply elem_of_cons. left. reflexivity.
Defined.

(** X10: the paths that exist after a run that returns are exactly: what
    existed before, the ten icons, and the directories down to the five
    output directories, less the legacy path. *)
Theorem main_final_paths (F : imaging) (ctx : process) (w w' : world) :
  main F ctx w = (w', Ok tt) →
  ∀ p, is_Some (files w' !! p) ↔
       p ≠ xml_path ctx ∧
       (is_Some (files w !! p) ∨ p ∈ outputs ctx ∨
        ∃ e, e ∈ DENSITIES ∧ p ∈ prefixes (out_dir ctx e.1)).
Proof.
  intros Hmain p.
  destruct (main_entries_written _ _ _ _ Hmain) as (fmt & im & _ & Hentry).
  cbv zeta in Hentry.
  assert (Hxml : files w' !! xml_path ctx = None).
  { destruct (main_ok_inv _ _ _ _ Hmain) as (? & ? & w1 & _ & _ & _ & _ & Hclean).
    destruct (main_cleanup_files _ _ _ Hclean) as [-> _]. apply lookup_delete_eq. }
  assert (Hwritten : p ∈ outputs ctx → is_Some (files w' !! p)).
  { intros ([d s] & He & [-> | ->])%outputs_of_elem;
      destruct (Hentry d s He) as (_ & H1 & H2); simpl; by eexists. }
  split.
  - intros Hp. split; [intros ->; rewrite Hxml in Hp; by destruct Hp |].
    destruct (decide (p ∈ outputs ctx)) as [Hout | Hout]; [auto |].
    assert (Hne : p ≠ xml_path ctx) by (intros ->; rewrite Hxml in Hp; by destruct Hp).
    pose proof (main_keeps _ _ _ _ _ Hmain p Hout Hne) as Hk.
    destruct (files w !! p) as [n |]; [left; by eexists |].
    destruct Hk as [Hk | [_ ?]]; [rewrite Hk in Hp; by destruct Hp | auto].
  - intros [Hne [Hp | [Hp | ([d s] & He & Hq)]]].
    + destruct (decide (p ∈ outputs ctx)) as [Hout | Hout]; [auto |].
      pose proof (main_keeps _ _ _ _ _ Hmain p Hout Hne) as Hk.
      destruct Hp as [n Hn]. rewrite Hn in Hk. by eexists.
    + auto.
    + destruct (Hentry d s He) as (Hdirs & _). simpl in Hq.
      rewrite (Hdirs p Hq). by eexists.
Qed.

Lemma main_final_paths_witness :
  main demo_lib demo_ctx demo_world_xml =
    ((main demo_lib demo_ctx demo_world_xml).1, Ok tt) ∧
  is_Some (files (main demo_lib demo_ctx demo_world_xml).1 !! SRC demo_ctx).
Proof.
  assert (Hrun : main demo_lib demo_ctx demo_world_xml =
                 ((main demo_lib demo_ctx demo_world_xml).1, Ok tt)).
  { rewrite (surjective_pairing (main demo_lib demo_ctx demo_world_xml)) at 1.
    f_equal; vm_compute; reflexivity. }
  split; [exact Hrun |].
  apply (main_final_paths _ _ _ _ Hrun (SRC demo_ctx)).
  split; [apply SRC_not_xml |]. left.
  exists (File (Picture JPEG demo_photo)).
  unfold demo_world_xml. cbn [files].
  rewrite lookup_insert_ne by (symmetry; apply SRC_not_xml).
  apply lookup_insert_eq.
Defined.

(** X11: a directory at the legacy path is not removed.  On files that are
    otherwise ready, [main] writes all ten icons and then raises
    [IsADirectoryError] for the legacy path, which is still a directory;
    the closing lines are not printed. *)
Theorem main_legacy_directory (F : imaging) (ctx : process) (w : world) :
  (∃ fmt im, files w !! SRC ctx = Some (File (Picture fmt im))) →
  (∀ e, e ∈ DENSITIES → entry_ready ctx e.1 (files w)) →
  files w !! xml_path ctx = Some Dir →
  ∃ w' side,
    main F ctx w = (w', Raised (IsADirectoryError (xml_path ctx))) ∧
    files w' !! xml_path ctx = Some Dir ∧
    (∀ p, p ∈ outputs ctx → is_file (files w') p = true) ∧
    console w' =
    console w ++ [MsgOpening (SRC ctx); MsgCropped side side]
              ++ flat_map (entry_messages ctx) DENSITIES.
Proof.
  intros (fmt & im & Hsrc) Hentries Hxml.
  rewrite main_run, main_load_run, Hsrc. cbv zeta.
  set (crop := square_image (convert_image im RGBA)).
  assert (Hw : width crop = Z.min (width im) (height im))
    by (unfold crop, square_image, square_box; simpl; lia).
  assert (Hh : height crop = Z.min (width im) (height im))
    by (unfold crop, square_image, square_box; simpl; lia).
  rewrite Hw, Hh.
  set (w0 := World _ _ _). set (src := S (S (length (objs w)))).
  assert (Hvalid : (src < length (objs w0))%nat)
    by (unfold w0, src; norm_world; rewrite length_app; simpl; lia).
  destruct (proj2 (for_each_returns_iff F ctx src DENSITIES w0 DENSITIES_positive
                     DENSITIES_NoDup Hvalid) Hentries) as [w1 Hloop].
  rewrite Hloop.
  destruct (for_each_effect _ _ _ _ _ _ _ DENSITIES_positive Hvalid Hloop)
    as (_ & _ & Hk).
  apply keeps_xml in Hk. unfold w0 in Hk. cbn [files] in Hk.
  rewrite Hxml in Hk.
  pose proof (for_each_console _ _ _ _ _ _ DENSITIES_positive Hvalid Hloop) as Hcon.
  unfold w0 in Hcon. cbn [console] in Hcon.
  pose proof (for_each_outputs _ _ _ _ _ _ DENSITIES_positive DENSITIES_NoDup
                Hvalid Hloop) as Hout.
  rewrite main_cleanup_run, Hk.
  exists w1, (Z.min (width im) (height im)).
  split; [done |]. split; [done |]. split.
  - intros p ([d s] & He & Hp)%outputs_of_elem. simpl in Hp.
    destruct (Hout d s He) as (H1 & H2 & _). unfold is_file.
    destruct Hp as [-> | ->].
    + unfold out_path, os_path_join. rewrite node_at_snoc.
      change (out_dir ctx d ++ ["ic_launcher.png"]) with (out_path ctx d).
      by rewrite H1.
    + unfold round_path, os_path_join. rewrite node_at_snoc.
      change (out_dir ctx d ++ ["ic_launcher_round.png"]) with (round_path ctx d).
      by rewrite H2.
  - by rewrite Hcon, <- app_assoc.
Qed.

Lemma demo_world_ready (x : node) :
  ∀ e, e ∈ DENSITIES →
    entry_ready demo_ctx e.1 (<[xml_path demo_ctx := x]> (files demo_world)).
Proof.
  intros e He.
  assert (Habsent : ∀ p, (length (RES demo_ctx) < length p)%nat →
            p ≠ xml_path demo_ctx →
            (<[xml_path demo_ctx := x]> (files demo_world)) !! p = None).
  { intros p Hlen Hne. rewrite lookup_insert_ne by done.
    unfold demo_world. cbn [files].
    destruct (decide (SRC demo_ctx = p)) as [<- | Hp]; [vm_compute in Hlen; lia |].
    rewrite lookup_insert_ne by done. rewrite dirs_at_lookup.
    case_decide as Hin; [| done].
    apply prefixes_length in Hin. vm_compute in Hin. vm_compute in Hlen. lia. }
  split; [| split].
  - intros q Hq.
    assert (Hq' := Hq). apply prefixes_length in Hq'.
    rewrite is_file_lookup by (by eapply prefix_nonempty).
    assert (Hne : q ≠ xml_path demo_ctx)
      by (intros ->; by apply xml_not_prefix in Hq).
    rewrite lookup_insert_ne by done. unfold demo_world. cbn [files].
    destruct (decide (SRC demo_ctx = q)) as [<- | Hp].
    { exfalso. revert Hq. rewrite list_elem_of_In.
      unfold out_dir, os_path_join. rewrite prefixes_snoc, in_app_iff.
      intros [Hq | [Hq | []]].
      - vm_compute in Hq. repeat (destruct Hq as [Hq | Hq]; [discriminate Hq |]).
        destruct Hq.
      - apply (f_equal length) in Hq. rewrite length_app in Hq.
        vm_compute in Hq. lia. }
    rewrite lookup_insert_ne by done. rewrite dirs_at_lookup.
    by case_decide.
  - rewrite Habsent; [done | rewrite out_path_length; lia | apply not_eq_sym, xml_not_output].
  - rewrite Habsent; [done | rewrite round_path_length; lia | apply not_eq_sym, xml_not_output].
Qed.

Lemma main_legacy_directory_witness :
  (∃ fmt im, files demo_world_xml_dir !! SRC demo_ctx = Some (File (Picture fmt im))) ∧
  (∀ e, e ∈ DENSITIES → entry_ready demo_ctx e.1 (files demo_world_xml_dir)) ∧
  files demo_world_xml_dir !! xml_path demo_ctx = Some Dir ∧
  ∃ w' side,
    main demo_lib demo_ctx demo_world_xml_dir =
      (w', Raised (IsADirectoryError (xml_path demo_ctx))) ∧
    files w' !! xml_path demo_ctx = Some Dir ∧
    (∀ p, p ∈ outputs demo_ctx → is_file (files w') p = true) ∧
    console w' =
    console demo_world_xml_dir
      ++ [MsgOpening (SRC demo_ctx); MsgCropped side side]
      ++ flat_map (entry_messages demo_ctx) DENSITIES.
Proof.
  assert (H1 : ∃ fmt im, files demo_world_xml_dir !! SRC demo_ctx =
                         Some (File (Picture fmt im))).
  { exists JPEG, demo_photo. unfold demo_world_xml_dir. cbn [files].
    rewrite lookup_insert_ne by (symmetry; apply SRC_not_xml).
    apply lookup_insert_eq. }
  assert (H2 : ∀ e, e ∈ DENSITIES →
                 entry_ready demo_ctx e.1 (files demo_world_xml_dir))
    by exact (demo_world_ready Dir).
  assert (H3 : files demo_world_xml_dir !! xml_path demo_ctx = Some Dir)
    by apply lookup_insert_eq.
  split; [exact H1 |]. split; [exact H2 |]. split; [exact H3 |].
  exact (main_legacy_directory demo_lib demo_ctx demo_world_xml_dir H1 H2 H3).
Defined.

(** ** [main]: the entries after a failure *)

Lemma out_dir_not_inner_prefix ctx d d' :
  d' ≠ d → out_dir ctx d' ∉ prefixes (out_dir ctx d).
Proof.
  intros Hne. unfold out_dir at 2. unfold os_path_join.
  rewrite prefixes_snoc. intros [Hq | Hq]%elem_of_app.
  - apply prefixes_length in Hq. rewrite out_dir_length in Hq. lia.
  - apply list_elem_of_singleton in Hq.
    change (RES ctx ++ [d]) with (out_dir ctx d) in Hq.
    by apply out_dir_inj in Hq.
Qed.

(** X12: when an entry of the table raises, the entries after it are never
    started: their two icon paths and their directory are exactly as they
    were before the run. *)
Theorem main_stops_at_failure (F : imaging) (ctx : process) (w w0 w1 w' : world)
    (src : ref) (done rest : list (string * Z)) (d : string) (s : Z) (e : exn) :
  main_load ctx w = (w0, Ok src) →
  DENSITIES = done ++ (d, s) :: rest →
  for_each done (main_entry F ctx src) w0 = (w1, Ok tt) →
  main_entry F ctx src (d, s) w1 = (w', Raised e) →
  main F ctx w = (w', Raised e) ∧
  ∀ d' s', (d', s') ∈ rest →
    files w' !! out_path ctx d' = files w !! out_path ctx d' ∧
    files w' !! round_path ctx d' = files w !! round_path ctx d' ∧
    files w' !! out_dir ctx d' = files w !! out_dir ctx d'.
Proof.
  intros Hload Hd Hdn Hx.
  destruct (main_load_ok _ _ _ _ Hload) as (fmt & im & _ & Hf0 & _ & Hvalid & _).
  pose proof DENSITIES_positive as Hpos. pose proof DENSITIES_NoDup as Hnd.
  rewrite Hd in Hpos, Hnd. rewrite fmap_app, fmap_cons in Hnd.
  apply Forall_app in Hpos as [Hpos1 [Hs _]%Forall_cons]. simpl in Hs.
  apply NoDup_app in Hnd as (_ & Hdisj & [Hfresh _]%NoDup_cons). simpl in Hfresh.
  destruct (for_each_effect _ _ _ _ _ _ _ Hpos1 Hvalid Hdn) as (Ho & _ & Hk1).
  assert (Hvalid1 : (src < length (objs w1))%nat)
    by (apply prefix_length in Ho; lia).
  destruct (main_entry_effect _ _ _ _ _ _ _ _ Hs Hvalid1 Hx) as (_ & _ & Hk2 & _).
  assert (Hk : keeps ctx (done.*1 ++ [d]) (files w) (files w')).
  { rewrite <- Hf0. eapply keeps_trans; (eapply keeps_weaken; [| done]).
    - intros x Hx'. apply elem_of_app. by left.
    - intros x Hx'. apply elem_of_app. by right. }
  split.
  { unfold main. erewrite bind_run by done.
    assert (for_each DENSITIES (main_entry F ctx src) w0 = (w', Raised e)) as Hloop
      by (rewrite Hd; by eapply for_each_raised_at).
    by erewrite bind_raised by done. }
  intros d' s' Hin.
  assert (Hnew : ∀ x, x ∈ done.*1 ++ [d] → d' ≠ x).
  { intros x [Hx' | ->%list_elem_of_singleton]%elem_of_app.
    - intros ->. apply (Hdisj x Hx'). apply elem_of_cons. right.
      by apply (list_elem_of_fmap_2 fst) in Hin.
    - intros ->. apply Hfresh. by apply (list_elem_of_fmap_2 fst) in Hin. }
  assert (Hcase : ∀ p,
    (∀ x, x ∈ done.*1 ++ [d] → p ≠ out_path ctx x ∧ p ≠ round_path ctx x) →
    (∀ x, x ∈ done.*1 ++ [d] → p ∉ prefixes (out_dir ctx x)) →
    files w' !! p = files w !! p).
  { intros p Hp Hq. specialize (Hk p Hp). destruct (files w !! p); [done |].
    destruct Hk as [? | [_ (x & Hx' & Hin')]]; [done |]. by apply Hq in Hin'. }
  split; [| split]; apply Hcase.
  - intros x Hx'. split; [| apply out_round_ne].
    intros ?%out_path_inj. by eapply Hnew.
  - intros x _ Hq. by apply (prefix_not_output ctx x d') in Hq as [? _].
  - intros x Hx'. split; [intros E; symmetry in E; by apply out_round_ne in E |].
    intros ?%round_path_inj. by eapply Hnew.
  - intros x _ Hq. by apply (prefix_not_output ctx x d') in Hq as [_ ?].
  - intros x _. apply (prefix_not_output ctx d' x), out_dir_is_prefix.
  - intros x Hx'. apply out_dir_not_inner_prefix. by eapply Hnew.
Qed.

Lemma main_stops_at_failure_witness :
  main_load demo_ctx demo_world_blocked = (blocked_loaded, Ok 2%nat) ∧
  DENSITIES =
    [("mipmap-mdpi", 48)] ++ ("mipmap-hdpi", 72) ::
    [("mipmap-xhdpi", 96); ("mipmap-xxhdpi", 144); ("mipmap-xxxhdpi", 192)] ∧
  for_each [("mipmap-mdpi", 48)] (main_entry demo_lib demo_ctx 2%nat) blocked_loaded =
    (blocked_first, Ok tt) ∧
  main_entry demo_lib demo_ctx 2%nat ("mipmap-hdpi", 72) blocked_first =
    (blocked_end, Raised (FileExistsError (out_dir demo_ctx "mipmap-hdpi"))) ∧
  main demo_lib demo_ctx demo_world_blocked =
    (blocked_end, Raised (FileExistsError (out_dir demo_ctx "mipmap-hdpi"))) ∧
  files blocked_end !! out_path demo_ctx "mipmap-xhdpi" =
  files demo_world_blocked !! out_path demo_ctx "mipmap-xhdpi".
Proof.
  assert (H1 : main_load demo_ctx demo_world_blocked = (blocked_loaded, Ok 2%nat)).
  { rewrite (surjective_pairing (main_load demo_ctx demo_world_blocked)) at 1.
    unfold blocked_loaded. f_equal; vm_compute; reflexivity. }
  assert (H3 : for_each [("mipmap-mdpi", 48)] (main_entry demo_lib demo_ctx 2%nat)
                 blocked_loaded = (blocked_first, Ok tt)).
  { rewrite (surjective_pairing
               (for_each [("mipmap-mdpi", 48)] (main_entry demo_lib demo_ctx 2%nat)
                         blocked_loaded)) at 1.
    unfold blocked_first. f_equal; vm_compute; reflexivity. }
  assert (H4 : main_entry demo_lib demo_ctx 2%nat ("mipmap-hdpi", 72) blocked_first =
               (blocked_end, Raised (FileExistsError (out_dir demo_ctx "mipmap-hdpi")))).
  { rewrite (surjective_pairing
               (main_entry demo_lib demo_ctx 2%nat ("mipmap-hdpi", 72) blocked_first)) at 1.
    unfold blocked_end. f_equal; vm_compute; reflexivity. }
  split; [exact H1 |]. split; [reflexivity |]. split; [exact H3 |].
  split; [exact H4 |].
  destruct (main_stops_at_failure demo_lib demo_ctx demo_world_blocked
              blocked_loaded blocked_first blocked_end 2%nat
              [("mipmap-mdpi", 48)]
              [("mipmap-xhdpi", 96); ("mipmap-xxhdpi", 144); ("mipmap-xxxhdpi", 192)]
              "mipmap-hdpi" 72 _ H1 eq_refl H3 H4) as [Hmain Hrest].
  split; [exact Hmain |].
  apply (Hrest "mipmap-xhdpi" 96). apply elem_of_cons. left. reflexivity.
Defined.
